(** * hls4ml optimizer passes for QKeras models

    A shallow embedding of [hls4ml/model/optimizer/passes/qkeras.py]:
    the three passes [OutputRoundingSaturationMode], [QKerasFactorizeAlpha]
    and [FuseConsecutiveBatchNormalization], the [ApplyAlpha] layer, and the
    part of the model graph they act on.

    Python objects that are mutated in place are threaded explicitly: a pass
    that changes a node returns the changed node (or the changed graph), and
    a raised exception is the left summand of [result].  A quantizer object
    that is reached from several places of a node carries its identity, and
    an assignment to one of its attributes is seen from all of them. *)

From Stdlib Require Import ZArith QArith Floats Ascii DecimalString.
From stdpp Require Import base option list strings gmap fin_maps.

Local Open Scope Z_scope.

(** ** Exceptions and the error monad *)

Inductive exn : Set :=
| UnboundLocalError
| AttributeError
| KeyError
| IndexError
| TypeError
| ValueError.

Definition result (A : Type) : Type := exn + A.

Definition Ok {A} (a : A) : result A := inr a.
Definition Raise {A} (e : exn) : result A := inl e.

Definition rbind {A B} (m : result A) (k : A -> result B) : result B :=
  match m with
  | inl e => inl e
  | inr a => k a
  end.

Notation "'let*' x ':=' m 'in' k" := (rbind m (fun x => k))
  (at level 10, x pattern, m at level 100, k at level 200).

(** [d[k]] on a dictionary, [l[0]] on a list, and the use of a value that may
    be the Python [None] where an object is needed. *)
Definition getitem {A} (d : gmap string A) (k : string) : result A :=
  match d !! k with
  | Some a => Ok a
  | None => Raise KeyError
  end.

Definition first {A} (l : list A) : result A :=
  match l with
  | a :: _ => Ok a
  | [] => Raise IndexError
  end.

Definition deref {A} (o : option A) : result A :=
  match o with
  | Some a => Ok a
  | None => Raise AttributeError
  end.

(** ** Python strings *)

Module Str.

(** [a in t] for two strings: [a] occurs in [t] as a contiguous run. *)
Fixpoint contains (a t : string) : bool :=
  String.prefix a t ||
  match t with
  | EmptyString => false
  | String _ t' => contains a t'
  end.

(** [s.replace(c, new)] for a pattern [c] of one character, the only
    pattern the passes use. *)
Fixpoint replace (c : ascii) (new s : string) : string :=
  match s with
  | EmptyString => EmptyString
  | String x s' =>
      if Ascii.eqb x c then new +:+ replace c new s'
      else String x (replace c new s')
  end.

(** [x in l] for a list of strings. *)
Definition elem (x : string) (l : list string) : bool :=
  existsb (String.eqb x) l.

(** [str(n)] for an integer. *)
Definition of_Z (z : Z) : string := NilZero.string_of_int (Z.to_int z).

(** [sep.join(l)]. *)
Definition join (sep : string) (l : list string) : string :=
  String.concat sep l.

End Str.

(** ** Array arithmetic *)

(** The scalar operations numpy applies entry by entry. *)
Class Arith (T : Type) := {
  zero : T;
  one : T;
  add : T -> T -> T;
  mul : T -> T -> T;
  div : T -> T -> T
}.

(** Arithmetic without rounding: the laws of a commutative semiring that the
    fusion of two affine maps relies on. *)
Class ExactArith (T : Type) `{Arith T} : Prop := {
  add_assoc' : forall a b c : T, add (add a b) c = add a (add b c);
  mul_comm' : forall a b : T, mul a b = mul b a;
  mul_assoc' : forall a b c : T, mul (mul a b) c = mul a (mul b c);
  mul_add_distr' : forall a b c : T, mul a (add b c) = add (mul a b) (mul a c)
}.

#[export] Instance Z_Arith : Arith Z :=
  {| zero := 0; one := 1; add := Z.add; mul := Z.mul; div := Z.div |}.

(** IEEE 754 binary64, the entries of a float64 array. *)
#[export] Instance float_Arith : Arith float :=
  {| zero := PrimFloat.zero; one := PrimFloat.one;
     add := PrimFloat.add; mul := PrimFloat.mul; div := PrimFloat.div |}.

Module np.

Section Ops.
Context {T : Type} `{Arith T}.

(** The scale and the bias of an affine layer are arrays of one dimension,
    one entry per channel.  A binary operator works entry by entry when the
    lengths agree, an array of one entry is stretched to the length of the
    other, and any other pair of lengths cannot be broadcast. *)
Definition binop (f : T -> T -> T) (u v : list T) : result (list T) :=
  if (length u =? length v)%nat then Ok (zip_with f u v)
  else match u, v with
       | [a], _ => Ok (map (f a) v)
       | _, [b] => Ok (map (fun x => f x b) u)
       | _, _ => Raise ValueError
       end.

Definition multiply : list T -> list T -> result (list T) := binop mul.
Definition plus : list T -> list T -> result (list T) := binop add.

End Ops.

End np.

(** Arrays of any number of dimensions, numpy's and TensorFlow's alike: the
    kernel of a layer and the scale a QKeras quantizer records for it. *)
Module ndarray.

(** The shape, and the entries in row-major order (the last index runs
    fastest). *)
Record t (T : Type) : Type := {
  shape : list nat;
  flat : list T
}.

Arguments shape {T}.
Arguments flat {T}.

(** The number of entries of an array of the shape [s]. *)
Definition size (s : list nat) : nat := foldr Nat.mul 1%nat s.

(** Broadcasting of two shapes, both written from the last dimension to the
    first: the dimensions are compared from the last one on, two dimensions
    agree when they are equal or one of them is 1, and the shorter shape is
    filled with the dimensions of the longer one. *)
Fixpoint broadcast_dims (r1 r2 : list nat) : result (list nat) :=
  match r1, r2 with
  | [], r | r, [] => Ok r
  | d1 :: r1', d2 :: r2' =>
      let* d :=
        if (d1 =? d2)%nat then Ok d1
        else if (d1 =? 1)%nat then Ok d2
        else if (d2 =? 1)%nat then Ok d1
        else Raise ValueError in
      let* r := broadcast_dims r1' r2' in
      Ok (d :: r)
  end.

(** [np.broadcast_shapes(s1, s2)] *)
Definition broadcast_shapes (s1 s2 : list nat) : result (list nat) :=
  let* r := broadcast_dims (rev s1) (rev s2) in
  Ok (rev r).

(** The position, among the entries of an array whose shape reads [rs] from
    the last dimension on, of the entry that is broadcast to the position [i]
    of an array whose shape reads [rr]: along a dimension of size 1 the one
    entry is repeated. *)
Fixpoint offset (rs rr : list nat) (i : nat) : nat :=
  match rs, rr with
  | d :: rs', r :: rr' =>
      ((if (d =? 1)%nat then 0 else i mod r) + d * offset rs' rr' (i / r))%nat
  | _, _ => 0%nat
  end.

Section Ops.
Context {T : Type} `{Arith T}.

(** The entry of [a] at the position [i] of the broadcast shape [s]. *)
Definition broadcast_entry (s : list nat) (a : t T) (i : nat) : option T :=
  flat a !! offset (rev (shape a)) (rev s) i.

(** A binary operator with broadcasting, entry by entry. *)
Definition binop (f : T -> T -> T) (u v : t T) : result (t T) :=
  let* s := broadcast_shapes (shape u) (shape v) in
  Ok {| shape := s;
        flat := omap (fun i => a ← broadcast_entry s u i;
                               b ← broadcast_entry s v i;
                               Some (f a b))
                     (seq 0 (size s)) |}.

(** [u * v] *)
Definition multiply : t T -> t T -> result (t T) := binop mul.

(** [1. / a] *)
Definition reciprocal (a : t T) : t T :=
  {| shape := shape a; flat := map (div one) (flat a) |}.

(** [np.zeros(s)] *)
Definition zeros (s : list nat) : t T :=
  {| shape := s; flat := replicate (size s) zero |}.

End Ops.

End ndarray.

(** ** The model graph *)

(** Modelled from the spec: the numeric type descriptors of [hls_model]
    ([IntegerPrecisionType], [FixedPrecisionType]), which this file imports.
    An integer kind has a bit width and a signed flag, a fixed-point kind a
    total width, an integer-bit count and a signed flag; each optionally
    carries a rounding mode, a saturation mode and a saturation bit count. *)
Inductive PrecisionType : Type :=
| IntegerPrecisionType (width : Z) (signed : bool)
    (rounding_mode saturation_mode : option string) (saturation_bits : option Z)
| FixedPrecisionType (width integer : Z) (signed : bool)
    (rounding_mode saturation_mode : option string) (saturation_bits : option Z).

(** What [variable.type.precision] holds: a descriptor object, as a
    fallback a string such as ['ap_fixed<16,6>'], or [None], a value that is
    neither. *)
Inductive precision : Type :=
| Typed (p : PrecisionType)
| Untyped (pstr : string)
| Unset.

(** Modelled from the spec: [str] of a descriptor, the fields in a bracketed
    suffix [<width, intbits, rounding, saturation, satbits>] with the unset
    ones left out, as in ['ap_fixed<16,6>']. *)
Definition str_PrecisionType (p : PrecisionType) : string :=
  match p with
  | IntegerPrecisionType w s rm sm sb =>
      "ap_" +:+ (if s then "" else "u") +:+ "int<" +:+
      Str.join "," (omap id [Some (Str.of_Z w); rm; sm; Str.of_Z <$> sb]) +:+ ">"
  | FixedPrecisionType w i s rm sm sb =>
      "ap_" +:+ (if s then "" else "u") +:+ "fixed<" +:+
      Str.join "," (omap id [Some (Str.of_Z w); Some (Str.of_Z i); rm; sm;
                             Str.of_Z <$> sb]) +:+ ">"
  end.

(** [str(precision)]; [str] of a string is the string. *)
Definition str_precision (p : precision) : string :=
  match p with
  | Typed p => str_PrecisionType p
  | Untyped pstr => pstr
  | Unset => "None"
  end.

(** The output variable of a layer: its shape and its numeric type. *)
Record ArrayVariable : Type := {
  shape : list Z;
  dim_names : list string;
  type_precision : precision
}.

(** A scalar of a quantizer configuration: [None], a number or a string
    (an [alpha] may be a number or a name such as ['auto']). *)
Inductive pyval : Type :=
| PyNone
| PyNum (q : Q)
| PyStr (s : string).

(** [v != 1] *)
Definition ne_1 (v : pyval) : bool :=
  match v with
  | PyNum q => negb (Qeq_bool q 1)
  | PyNone | PyStr _ => true
  end.

(** The model is generic in the type [T] of the arrays that the weights
    hold. *)
Section Model.
Context {T : Type}.

(** What the attribute [scale] of a QKeras quantizer holds after a call: a
    tensor, or a plain Python number. *)
Inductive pyscale : Type :=
| Tensor (a : T)
| Plain (v : pyval).

(** [scale.numpy()]: a plain number has no such method. *)
Definition numpy (s : pyscale) : result T :=
  match s with
  | Tensor a => Ok a
  | Plain _ => Raise AttributeError
  end.

(** A QKeras quantizer, an object of a library outside the repository: its
    configuration, and its class, given by what a call computes from a
    configuration and an array (the quantized array and what the call
    records in [scale]). *)
Record qkeras_quantizer : Type := {
  get_config : gmap string pyval;
  qkeras_call : gmap string pyval -> T -> T * pyscale
}.

(** [quantizer.from_config(cfg)]: an object of the same class. *)
Definition from_config (q : qkeras_quantizer) (cfg : gmap string pyval)
  : qkeras_quantizer :=
  {| get_config := cfg; qkeras_call := qkeras_call q |}.

(** [quantizer(x)], with the [scale] it leaves behind. *)
Definition call (q : qkeras_quantizer) (x : T) : T * pyscale :=
  qkeras_call q (get_config q) x.

(** The quantizer object of hls4ml, held by a weight and recorded under the
    node attributes ['weight_quantizer'] and ['bias_quantizer'].  A field that
    is [None] here is an attribute the object does not have.
    [quantize] is its [__call__], as a function of its current
    [quantizer_fn].  [oid] is the identity of the object: a weight and an
    attribute that hold the same object hold values with the same [oid], and
    an assignment to an attribute of the object ([write_object] below)
    changes them all. *)
Record Quantizer : Type := {
  oid : nat;
  alpha : option pyval;
  quantizer_fn : option qkeras_quantizer;
  quantize : qkeras_quantizer -> T -> T
}.

Definition set_alpha (q : Quantizer) (a : pyval) : Quantizer :=
  {| oid := oid q; alpha := Some a; quantizer_fn := quantizer_fn q;
     quantize := quantize q |}.

Definition set_quantizer_fn (q : Quantizer) (f : qkeras_quantizer) : Quantizer :=
  {| oid := oid q; alpha := alpha q; quantizer_fn := Some f;
     quantize := quantize q |}.

(** [q(x)], the [__call__] of the object: it applies the QKeras function the
    object holds. *)
Definition Quantizer_call (q : Quantizer) (x : T) : result T :=
  let* fn := deref (quantizer_fn q) in
  Ok (quantize q fn x).

(** An entry of [node.weights]. *)
Record WeightVariable : Type := {
  data : T;
  data_unquantized : option T;
  quantizer : option Quantizer
}.

Definition set_data (w : WeightVariable) (d : T) : WeightVariable :=
  {| data := d; data_unquantized := data_unquantized w; quantizer := quantizer w |}.

Definition set_quantizer (w : WeightVariable) (q : Quantizer) : WeightVariable :=
  {| data := data w; data_unquantized := data_unquantized w; quantizer := Some q |}.

(** The values found in [node.attributes]. *)
Inductive attr : Type :=
| ANone
| AInt (z : Z)
| AStr (s : string)
| AStrs (l : list string)
| APrecisionType (p : PrecisionType)
| AQuantizer (q : Quantizer).

Definition is_not_None (a : attr) : bool :=
  match a with
  | ANone => false
  | _ => true
  end.

(** A numeric type stored as an attribute: a string stays a string. *)
Definition attr_of_precision (p : precision) : attr :=
  match p with
  | Typed p => APrecisionType p
  | Untyped pstr => AStr pstr
  | Unset => ANone
  end.

(** A layer of the graph.  [class_name] is [node.__class__.__name__]. *)
Record node : Type := {
  class_name : string;
  name : string;
  inputs : list string;
  outputs : list string;
  attributes : gmap string attr;
  weights : gmap string WeightVariable;
  output_variable : ArrayVariable
}.

Definition set_attributes (nd : node) (a : gmap string attr) : node :=
  {| class_name := class_name nd; name := name nd; inputs := inputs nd;
     outputs := outputs nd; attributes := a; weights := weights nd;
     output_variable := output_variable nd |}.

Definition set_weights (nd : node) (w : gmap string WeightVariable) : node :=
  {| class_name := class_name nd; name := name nd; inputs := inputs nd;
     outputs := outputs nd; attributes := attributes nd; weights := w;
     output_variable := output_variable nd |}.

Definition set_inputs (nd : node) (i : list string) : node :=
  {| class_name := class_name nd; name := name nd; inputs := i;
     outputs := outputs nd; attributes := attributes nd; weights := weights nd;
     output_variable := output_variable nd |}.

Definition set_output_variable (nd : node) (v : ArrayVariable) : node :=
  {| class_name := class_name nd; name := name nd; inputs := inputs nd;
     outputs := outputs nd; attributes := attributes nd; weights := weights nd;
     output_variable := v |}.

(** Modelled from the spec: the accessors of the graph service, which is not
    part of this file ([getAttribute], [setAttribute], [getOutputType],
    [setOutputType]).  [get_attr] answers [None] for a key that is not set. *)
Definition get_attr (nd : node) (key : string) : attr :=
  default ANone (attributes nd !! key).

Definition set_attr (nd : node) (key : string) (v : attr) : node :=
  set_attributes nd (<[key := v]> (attributes nd)).

Definition get_output_precision (nd : node) : precision :=
  type_precision (output_variable nd).

Definition set_output_precision (nd : node) (p : precision) : node :=
  set_output_variable nd
    {| shape := shape (output_variable nd);
       dim_names := dim_names (output_variable nd);
       type_precision := p |}.

(** An assignment [q.field = v] to the quantizer object with the identity
    [id], where [f] is the change of the object: every place of the node
    that holds the object, among the attributes and among the weights, holds
    the changed object.  [written id f q] is what a place that held [q]
    holds after the assignment. *)
Definition written (id : nat) (f : Quantizer -> Quantizer) (q : Quantizer)
  : Quantizer :=
  if (oid q =? id)%nat then f q else q.

Definition map_attr (g : Quantizer -> Quantizer) (a : attr) : attr :=
  match a with
  | AQuantizer q => AQuantizer (g q)
  | _ => a
  end.

Definition map_weight (g : Quantizer -> Quantizer) (w : WeightVariable)
  : WeightVariable :=
  {| data := data w; data_unquantized := data_unquantized w;
     quantizer := g <$> quantizer w |}.

Definition write_object (nd : node) (id : nat) (f : Quantizer -> Quantizer)
  : node :=
  set_weights
    (set_attributes nd (map_attr (written id f) <$> attributes nd))
    (map_weight (written id f) <$> weights nd).

(** The model: the graph, a dictionary from node names to nodes, and the
    numeric type a new output variable receives. *)
Record HLSModel : Type := {
  graph : gmap string node;
  default_precision : precision
}.

Definition set_graph (model : HLSModel) (g : gmap string node) : HLSModel :=
  {| graph := g; default_precision := default_precision model |}.

(** Modelled from the spec: [getInputNode], the single predecessor of a node.
    A tensor reference is resolved through the graph's index of names; the
    answer is [None] when the node has no input or the reference names no
    node. *)
Definition get_input_node (model : HLSModel) (nd : node) : option node :=
  match inputs nd with
  | i :: _ => graph model !! i
  | [] => None
  end.

(** The object [get_input_node] answers is the one the graph holds: a change
    made to it is a change of the graph's entry. *)
Definition set_input_node (model : HLSModel) (nd : node) (prev : node)
  : HLSModel :=
  match inputs nd with
  | i :: _ => set_graph model (<[i := prev]> (graph model))
  | [] => model
  end.

(** Modelled from the spec: the output variable of the layer a node reads
    from. *)
Definition get_input_variable (model : HLSModel) (ins : list string)
  : result ArrayVariable :=
  let* i := first ins in
  let* prev := getitem (graph model) i in
  Ok (output_variable prev).

(** Every reference to the tensor [old] in a list of inputs becomes [new]. *)
Definition rewire (old new : string) (nd : node) : node :=
  set_inputs nd (map (fun i => if String.eqb i old then new else i) (inputs nd)).

(** Modelled from the spec: [removeNode(node, rewire)].  The node leaves the
    graph; with [rewire], its consumers are rewired to the output of its
    predecessor. *)
Definition remove_node (model : HLSModel) (nd : node) (rewire_ : bool)
  : result HLSModel :=
  if rewire_ then
    let* prev := deref (get_input_node model nd) in
    let* o := first (outputs nd) in
    let* p := first (outputs prev) in
    Ok (set_graph model (delete (name nd) (rewire o p <$> graph model)))
  else
    Ok (set_graph model (delete (name nd) (graph model))).

(** Modelled from the spec: [insertNode(node)].  The node enters the graph
    downstream of its input, and every consumer of that input consumes the
    new node's output instead. *)
Definition insert_node (model : HLSModel) (new : node) : result HLSModel :=
  let* i := first (inputs new) in
  let* o := first (outputs new) in
  Ok (set_graph model (<[name new := new]> (rewire i o <$> graph model))).

(** Modelled from the spec: [addWeight(node, role, data)]. *)
Definition add_weights_variable (nd : node) (role : string) (d : T) : node :=
  set_weights nd
    (<[role := {| data := d; data_unquantized := None; quantizer := None |}]>
       (weights nd)).

(** A class of layers, as [register_layer] records it: its name and its
    [initialize], which computes the output variable of a new layer from the
    model and the layer's inputs. *)
Record layer_class : Type := {
  __name__ : string;
  initialize : HLSModel -> list string -> result ArrayVariable
}.

(** Modelled from the spec: [createNode(kind, name, attributes, inputs)].  The
    new node is of the class registered for [kind], has one output, named
    after the node, and no weights yet. *)
Definition make_node (layer_map : gmap string layer_class) (model : HLSModel)
    (kind name_ : string) (attrs : gmap string attr) (ins : list string)
  : result node :=
  let* cls := getitem layer_map kind in
  let* out := initialize cls model ins in
  Ok {| class_name := __name__ cls; name := name_; inputs := ins;
        outputs := [name_]; attributes := attrs; weights := ∅;
        output_variable := out |}.

End Model.

Arguments pyscale : clear implicits.
Arguments qkeras_quantizer : clear implicits.
Arguments Quantizer : clear implicits.
Arguments WeightVariable : clear implicits.
Arguments attr : clear implicits.
Arguments node : clear implicits.
Arguments HLSModel : clear implicits.
Arguments layer_class : clear implicits.

(** Modelled from the spec: what an affine node computes,
    [scale * input + bias] entry by entry.  This is the inference of
    [BatchNormalization], a class of [hls_layers], which this file imports. *)
Definition affine {T} `{Arith T} (scale bias x : list T) : result (list T) :=
  let* t := np.multiply scale x in
  np.plus t bias.

(** ** The passes *)

Module OutputRoundingSaturationMode.

(** The pass object: the class attributes [layers], [rounding_mode],
    [saturation_mode] and [saturation_bits], [None] when left unset. *)
Record pass : Type := {
  layers : list string;
  rounding_mode : option string;
  saturation_mode : option string;
  saturation_bits : option Z
}.

Section Pass.
Context {T : Type}.

Definition match_ (self : pass) (nd : node T) : bool :=
  let layer_match :=
    Str.elem (class_name nd) (layers self) || Str.elem (name nd) (layers self) in
  let t := str_precision (get_output_precision nd) in
  let rs_match := false in
  let rs_match :=
    match rounding_mode self with
    | Some rm => rs_match || negb (Str.contains rm t)
    | None => rs_match
    end in
  let rs_match :=
    match saturation_mode self with
    | Some sm => rs_match || negb (Str.contains sm t)
    | None => rs_match
    end in
  layer_match && rs_match.

Definition precision_string_modify (self : pass) (pstr : string) : string :=
  let mode := "" in
  let mode :=
    match rounding_mode self with
    | Some rm => mode +:+ "," +:+ rm
    | None => mode
    end in
  let mode :=
    match saturation_mode self with
    | Some sm => mode +:+ "," +:+ sm
    | None => mode
    end in
  let mode :=
    match saturation_bits self with
    | Some sb => mode +:+ "," +:+ Str.of_Z sb
    | None => mode
    end in
  let mode := mode +:+ ">" in
  Str.replace ">" mode pstr.

(** The local variables [newprecision] and [newtype] after the three-way
    branch on the old type; [None] is a name that was never bound.  The
    branch for an integer type binds [newprecision], the other two bind
    [newtype].  The last branch takes whatever is no descriptor to
    [precision_string_modify], whose [pstr.replace] raises [AttributeError]
    on [None]. *)
Definition transform_locals (self : pass) (oldtype : precision)
  : result (option precision * option precision) :=
  match oldtype with
  | Typed (IntegerPrecisionType width signed _ _ _) =>
      Ok (Some (Typed (IntegerPrecisionType width signed (rounding_mode self)
                         (saturation_mode self) (saturation_bits self))),
          None)
  | Typed (FixedPrecisionType width integer signed _ _ _) =>
      Ok (None,
          Some (Typed (FixedPrecisionType width integer signed
                         (rounding_mode self) (saturation_mode self)
                         (saturation_bits self))))
  | Untyped pstr =>
      Ok (None, Some (Untyped (precision_string_modify self pstr)))
  | Unset => Raise AttributeError
  end.

(** [transform(self, model, node)].  The pass changes the node in place and
    leaves the model alone: the result is the changed node and the value
    returned.  Reading [newtype] when it was never bound raises
    [UnboundLocalError]. *)
Definition transform (self : pass) (model : HLSModel T) (nd : node T)
  : result (node T * bool) :=
  let oldtype := get_output_precision nd in
  let* (newprecision, newtype) := transform_locals self oldtype in
  match newtype with
  | None => Raise UnboundLocalError
  | Some newtype =>
      let nd := set_output_precision nd newtype in
      let nd :=
        if is_not_None (get_attr nd "accum_t")
        then set_attr nd "accum_t" (attr_of_precision newtype)
        else nd in
      Ok (nd, false)
  end.

End Pass.

End OutputRoundingSaturationMode.

Module ApplyAlpha.

Section Layer.
Context {T : Type}.

(** [initialize]: the output variable has the shape and the dimension names
    of the input variable. *)
Definition initialize (model : HLSModel T) (ins : list string)
  : result ArrayVariable :=
  let* inp := get_input_variable model ins in
  let shape_ := shape inp in
  let dims := dim_names inp in
  Ok {| shape := shape_; dim_names := dims;
        type_precision := default_precision model |}.

Definition add_weights (self : node T) (scale bias : T) : node T :=
  let self := add_weights_variable self "scale" scale in
  add_weights_variable self "bias" bias.

(** The class, as [register_layer('ApplyAlpha', ApplyAlpha)] records it. *)
Definition cls : layer_class T :=
  @Build_layer_class T "ApplyAlpha" initialize.

Definition layer_map : gmap string (layer_class T) := {[ "ApplyAlpha" := cls ]}.

End Layer.

End ApplyAlpha.

(** [isinstance(node, BatchNormalization)]: the class itself or [ApplyAlpha],
    its subclass. *)
Definition isinstance_BatchNormalization {T} (nd : node T) : bool :=
  Str.elem (class_name nd) ["BatchNormalization"; "ApplyAlpha"].

Module QKerasFactorizeAlpha.

(** The arrays of this pass are kernels of any number of dimensions.  The
    local names [quantizer_], [weights_] and [scale_] stand for [quantizer],
    [weights] and the unconverted [quantizer.scale] of the source. *)
Section Pass.
Context {T : Type} `{Arith T}.

(** [hasattr(q, 'alpha')] followed by [q.alpha != 1], for the value found
    under a quantizer attribute: only a quantizer object can have an
    [alpha]. *)
Definition has_alpha_ne_1 (a : attr (ndarray.t T)) : bool :=
  match a with
  | AQuantizer q =>
      match alpha q with
      | Some v => ne_1 v
      | None => false
      end
  | _ => false
  end.

Definition match_ (nd : node (ndarray.t T)) : bool :=
  let q_layer := Str.elem (class_name nd) ["Dense"; "Conv1D"; "Conv2D"] in
  let has_w_quant := is_not_None (get_attr nd "weight_quantizer") in
  let has_b_quant := is_not_None (get_attr nd "bias_quantizer") in
  let has_w_alpha :=
    if has_w_quant then has_alpha_ne_1 (get_attr nd "weight_quantizer")
    else false in
  let has_b_alpha :=
    if has_b_quant then has_alpha_ne_1 (get_attr nd "bias_quantizer")
    else false in
  q_layer && ((has_w_quant && has_w_alpha) || (has_b_quant && has_b_alpha)).

(** [node.attributes[key].alpha = 1].  The assignment is to the object the
    attribute holds.  An integer, a string or a list takes no attribute; a
    type descriptor takes one, which this model has no field to record. *)
Definition assign_alpha_1 (nd : node (ndarray.t T)) (key : string)
  : result (node (ndarray.t T)) :=
  let* a := getitem (attributes nd) key in
  match a with
  | AQuantizer q => Ok (write_object nd (oid q) (fun q => set_alpha q (PyNum 1)))
  | APrecisionType _ => Ok nd
  | ANone | AInt _ | AStr _ | AStrs _ => Raise AttributeError
  end.

(** [a + '_alpha'] for the value of an attribute. *)
Definition plus_alpha (a : attr (ndarray.t T)) : result (attr (ndarray.t T)) :=
  match a with
  | AStr s => Ok (AStr (s +:+ "_alpha"))
  | _ => Raise TypeError
  end.

(** The first part of [transform] (lines 110 to 133): the scale is taken out
    of the weights and the quantizers are reset.  The result is the changed
    node and the scale. *)
Definition factorize (nd : node (ndarray.t T))
  : result (node (ndarray.t T) * ndarray.t T) :=
  let* w := getitem (weights nd) "weight" in
  let* hq := deref (quantizer w) in
  let* quantizer_ := deref (quantizer_fn hq) in
  let* weights_ := deref (data_unquantized w) in
  let '(qweights, scale_) := call quantizer_ weights_ in
  let* scale := numpy scale_ in
  let unscale := ndarray.reciprocal scale in
  let* new_weights := ndarray.multiply unscale qweights in
  let qcfg := get_config quantizer_ in
  let qcfg := <["alpha" := PyNum 1]> qcfg in
  let fn := from_config quantizer_ qcfg in
  let nd := write_object nd (oid hq) (fun q => set_quantizer_fn q fn) in
  let* w := getitem (weights nd) "weight" in
  let* hq := deref (quantizer w) in
  let* d := Quantizer_call hq new_weights in
  let nd := set_weights nd (<["weight" := set_data w d]> (weights nd)) in
  let has_w_quant := is_not_None (get_attr nd "weight_quantizer") in
  let has_b_quant := is_not_None (get_attr nd "bias_quantizer") in
  let* nd := if has_w_quant then assign_alpha_1 nd "weight_quantizer" else Ok nd in
  let* nd := if has_b_quant then assign_alpha_1 nd "bias_quantizer" else Ok nd in
  Ok (nd, scale).

(** The attributes of the layer that applies the scale. *)
Definition alpha_attrs (nd : node (ndarray.t T))
  : result (gmap string (attr (ndarray.t T))) :=
  let* name_ := plus_alpha (get_attr nd "name") in
  Ok (<["name" := name_]>
     (<["class_name" := AStr "Alpha"]>
     (<["inputs" := AStrs (outputs nd)]>
     (<["n_in" := get_attr nd "n_out"]>
     (<["n_filt" := if is_not_None (get_attr nd "n_filt")
                    then get_attr nd "n_filt" else AInt (-1)]>
     (<["reuse_factor" := get_attr nd "reuse_factor"]>
     (<["bias_t" := AStr "ap_fixed<16,6>"]>
     (<["scale_t" := AStr "ap_fixed<16,6>"]> ∅)))))))).

(** [transform(self, model, node)].  The node is an object of the graph, so
    its changes are seen through [model.graph]: the changed node is written
    back under its name before the new layer is made. *)
Definition transform (model : HLSModel (ndarray.t T)) (nd : node (ndarray.t T))
  : result (HLSModel (ndarray.t T) * bool) :=
  let* (nd, scale) := factorize nd in
  let model := set_graph model (<[name nd := nd]> (graph model)) in
  let* attrs := alpha_attrs nd in
  let* alpha_layer :=
    make_node ApplyAlpha.layer_map model "ApplyAlpha" (name nd +:+ "_alpha")
      attrs (outputs nd) in
  let alpha_layer :=
    ApplyAlpha.add_weights alpha_layer scale
      (ndarray.zeros (ndarray.shape scale)) in
  let* model := insert_node model alpha_layer in
  Ok (model, true).

End Pass.

End QKerasFactorizeAlpha.

Module FuseConsecutiveBatchNormalization.

Section Match.
Context {T : Type}.

Definition match_ (model : HLSModel T) (nd : node T) : bool :=
  isinstance_BatchNormalization nd &&
  match get_input_node model nd with
  | Some prev => isinstance_BatchNormalization prev
  | None => false
  end.

End Match.

Section Pass.
Context {T : Type} `{Arith T}.

(** [s2 = s0 * s1] and [b2 = s1 * b0 + b1]. *)
Definition fuse (s0 b0 s1 b1 : list T) : result (list T * list T) :=
  let* s2 := np.multiply s0 s1 in
  let* t := np.multiply s1 b0 in
  let* b2 := np.plus t b1 in
  Ok (s2, b2).

(** [node.weights[role].data = d] *)
Definition assign_data (nd : node (list T)) (role : string) (d : list T)
  : result (node (list T)) :=
  let* w := getitem (weights nd) role in
  Ok (set_weights nd (<[role := set_data w d]> (weights nd))).

(** [transform(self, model, node)].  [bn0] is the object the graph holds
    for the node's input; its new weights are written where it was found. *)
Definition transform (model : HLSModel (list T)) (nd : node (list T))
  : result (HLSModel (list T) * bool) :=
  let* bn0 := deref (get_input_node model nd) in
  let bn1 := nd in
  let* ws0 := getitem (weights bn0) "scale" in
  let s0 := data ws0 in
  let* wb0 := getitem (weights bn0) "bias" in
  let b0 := data wb0 in
  let* ws1 := getitem (weights bn1) "scale" in
  let s1 := data ws1 in
  let* wb1 := getitem (weights bn1) "bias" in
  let b1 := data wb1 in
  let* (s2, b2) := fuse s0 b0 s1 b1 in
  let* bn0 := assign_data bn0 "scale" s2 in
  let* bn0 := assign_data bn0 "bias" b2 in
  let model := set_input_node model nd bn0 in
  let* model := remove_node model nd true in
  Ok (model, true).

End Pass.

End FuseConsecutiveBatchNormalization.

(** * Predicates of the statements, and concrete models *)

(** The output types on which [OutputRoundingSaturationMode.transform]
    records the configured modes: a fixed-point descriptor, and a string with
    a closing bracket. *)
Definition takes_modes (p : precision) : bool :=
  match p with
  | Typed (FixedPrecisionType _ _ _ _ _ _) => true
  | Typed (IntegerPrecisionType _ _ _ _ _) => false
  | Untyped pstr => Str.contains ">" pstr
  | Unset => false
  end.

(** The entry an array has at an index once it is broadcast: an array of one
    entry has that entry everywhere. *)
Definition entry {T} (u : list T) (i : nat) : option T :=
  match u with
  | [a] => Some a
  | _ => u !! i
  end.

(** An array that broadcasts to the length [n]. *)
Definition broadcasts_to {T} (n : nat) (u : list T) : Prop :=
  length u = n \/ length u = 1%nat.

(** The upstream node after [FuseConsecutiveBatchNormalization.transform]
    has assigned the fused scale and bias. *)
Definition fused_node {T} (bn0 : node (list T)) (ws0 wb0 : WeightVariable (list T))
    (s2 b2 : list T) : node (list T) :=
  set_weights bn0
    (<["bias" := set_data wb0 b2]> (<["scale" := set_data ws0 s2]> (weights bn0))).

(** The values of a quantizer attribute on which [.alpha = 1] is accepted, or
    is not executed at all. *)
Definition takes_alpha {T} (a : attr T) : bool :=
  match a with
  | ANone | AQuantizer _ | APrecisionType _ => true
  | AInt _ | AStr _ | AStrs _ => false
  end.

(** The identity of the quantizer object an attribute holds, and the one of
    the quantizer object of the node's weight. *)
Definition attr_oid {T} (a : attr T) : option nat :=
  match a with
  | AQuantizer q => Some (oid q)
  | _ => None
  end.

Definition weight_oid {T} (nd : node T) : option nat :=
  w ← weights nd !! "weight"; q ← quantizer w; Some (oid q).

(** [q] is the object with the identity [o]. *)
Definition is_object {T} (o : option nat) (q : Quantizer T) : bool :=
  match o with
  | Some id => (oid q =? id)%nat
  | None => false
  end.

(** [q] is the object the node holds under ['weight_quantizer'] or under
    ['bias_quantizer']. *)
Definition is_quantizer_attr {T} (nd : node T) (q : Quantizer T) : bool :=
  is_object (attr_oid (get_attr nd "weight_quantizer")) q ||
  is_object (attr_oid (get_attr nd "bias_quantizer")) q.

(** The node after [node.attributes[key].alpha = 1], where the attribute
    holds a quantizer object; a node whose attribute holds none is left as
    it is. *)
Definition alpha_written {T} (nd : node T) (key : string) : node T :=
  match attr_oid (get_attr nd key) with
  | Some id => write_object nd id (fun q => set_alpha q (PyNum 1))
  | None => nd
  end.

(** The layer [QKerasFactorizeAlpha.transform] makes for the node [nd] (in
    its state after the factorization), from the attributes [attrs], the
    input variable [inp] and the scale. *)
Definition alpha_layer {T} `{Arith T} (model : HLSModel (ndarray.t T))
    (nd : node (ndarray.t T)) (attrs : gmap string (attr (ndarray.t T)))
    (inp : ArrayVariable) (scale : ndarray.t T)
  : node (ndarray.t T) :=
  ApplyAlpha.add_weights
    {| class_name := "ApplyAlpha"; name := name nd +:+ "_alpha";
       inputs := outputs nd; outputs := [name nd +:+ "_alpha"];
       attributes := attrs; weights := ∅;
       output_variable :=
         {| shape := shape inp; dim_names := dim_names inp;
            type_precision := default_precision model |} |}
    scale (ndarray.zeros (ndarray.shape scale)).

Module Example.

Import OutputRoundingSaturationMode.

Definition variable_of (p : precision) : ArrayVariable :=
  {| shape := [10]; dim_names := ["N_LAYER_1"]; type_precision := p |}.

(** A dense layer with the output type [p]. *)
Definition dense (p : precision) : node (list Z) :=
  {| class_name := "Dense"; name := "fc1"; inputs := ["input_1"];
     outputs := ["fc1"];
     attributes := {[ "name" := AStr "fc1"; "accum_t" := AStr "ap_fixed<24,12>" ]};
     weights := ∅; output_variable := variable_of p |}.

Definition fixed_16_6 : precision :=
  Typed (FixedPrecisionType 16 6 true None None None).

Definition model_of (nd : node (list Z)) : HLSModel (list Z) :=
  {| graph := {[ name nd := nd ]}; default_precision := fixed_16_6 |}.

(** Round the outputs of the dense layers. *)
Definition round_dense : pass :=
  {| layers := ["Dense"]; rounding_mode := Some "AP_RND_CONV";
     saturation_mode := None; saturation_bits := None |}.

(** The scales of three output channels, powers of two. *)
Definition po2 : list float := [2%float; 4%float; 8%float].

(** The sign of an entry, and the sign times the scale of the entry's
    channel, for a kernel whose last dimension are the three channels. *)
Definition sign (x : float) : float :=
  if PrimFloat.ltb x 0%float then (-1)%float else 1%float.

Definition signs_po2 (x : ndarray.t float) : ndarray.t float :=
  {| ndarray.shape := ndarray.shape x;
     ndarray.flat :=
       imap (fun i a => mul (sign a) (nth (i mod 3) po2 1%float)) (ndarray.flat x) |}.

Definition signs (x : ndarray.t float) : ndarray.t float :=
  {| ndarray.shape := ndarray.shape x; ndarray.flat := map sign (ndarray.flat x) |}.

(** The scales as a tensor of the shape (1, 3). *)
Definition scale : ndarray.t float :=
  {| ndarray.shape := [1; 3]%nat; ndarray.flat := po2 |}.

(** A quantizer class in the manner of QKeras' [binary], for kernels of three
    output channels.  With a named [alpha] a call gives the signs of the
    entries times the scale of their channel, and records the scales as a
    tensor of the shape (1, 3).  With a number as [alpha], or none, [scale]
    is that plain number, or 1, and the example gives the signs. *)
Definition binary (cfg : gmap string pyval) (x : ndarray.t float)
  : ndarray.t float * pyscale (ndarray.t float) :=
  match cfg !! "alpha" with
  | Some (PyStr _) => (signs_po2 x, Tensor scale)
  | Some (PyNum q) => (signs x, Plain (PyNum q))
  | _ => (signs x, Plain (PyNum 1))
  end.

(** The [__call__] of the hls4ml quantizer of binary layers: the QKeras
    function, with -1 encoded as 0. *)
Definition encode (fn : qkeras_quantizer (ndarray.t float)) (x : ndarray.t float)
  : ndarray.t float :=
  let y := (call fn x).1 in
  {| ndarray.shape := ndarray.shape y;
     ndarray.flat :=
       map (fun a => if PrimFloat.eqb a (-1)%float then 0%float else a)
         (ndarray.flat y) |}.

Definition binary_po2 : qkeras_quantizer (ndarray.t float) :=
  {| get_config := {[ "alpha" := PyStr "auto_po2" ]}; qkeras_call := binary |}.

(** The quantizer object of the weight, with [alpha='auto_po2']. *)
Definition auto_po2 : Quantizer (ndarray.t float) :=
  {| oid := 1; alpha := Some (PyStr "auto_po2");
     quantizer_fn := Some binary_po2; quantize := encode |}.

(** The quantizer object of the bias, another object of the same kind. *)
Definition bias_po2 : Quantizer (ndarray.t float) :=
  {| oid := 2; alpha := Some (PyStr "auto_po2");
     quantizer_fn := Some binary_po2; quantize := encode |}.

(** A kernel of the shape (2, 3) and a bias of the shape (3). *)
Definition kernel : ndarray.t float :=
  {| ndarray.shape := [2; 3]%nat;
     ndarray.flat := [0.5%float; (-1.5)%float; 0.25%float;
                      (-1)%float; 2%float; (-0.125)%float] |}.

Definition bias : ndarray.t float :=
  {| ndarray.shape := [3]%nat;
     ndarray.flat := [1%float; (-1)%float; 1%float] |}.

(** The weight and the bias of a layer quantized with [alpha='auto_po2']. *)
Definition qweight : WeightVariable (ndarray.t float) :=
  {| data := signs_po2 kernel; data_unquantized := Some kernel;
     quantizer := Some auto_po2 |}.

Definition qbias : WeightVariable (ndarray.t float) :=
  {| data := bias; data_unquantized := Some bias; quantizer := Some bias_po2 |}.

(** A dense layer whose weights and bias are quantized with
    [alpha='auto_po2'].  Each quantizer attribute and the quantizer of the
    weight it belongs to are one object. *)
Definition qdense : node (ndarray.t float) :=
  {| class_name := "Dense"; name := "fc1"; inputs := ["input_1"];
     outputs := ["fc1"];
     attributes := {[ "name" := AStr "fc1"; "n_out" := AInt 3;
                      "weight_quantizer" := AQuantizer auto_po2;
                      "bias_quantizer" := AQuantizer bias_po2 ]};
     weights := {[ "weight" := qweight; "bias" := qbias ]};
     output_variable := variable_of fixed_16_6 |}.

(** A dense layer with a quantized bias and plain weights. *)
Definition qbias_only : node (ndarray.t float) :=
  {| class_name := "Dense"; name := "fc1"; inputs := ["input_1"];
     outputs := ["fc1"];
     attributes := {[ "name" := AStr "fc1"; "n_out" := AInt 3;
                      "bias_quantizer" := AQuantizer bias_po2 ]};
     weights := {[ "weight" := {| data := kernel;
                                  data_unquantized := Some kernel;
                                  quantizer := None |} ]};
     output_variable := variable_of fixed_16_6 |}.

Definition fmodel_of (nd : node (ndarray.t float)) : HLSModel (ndarray.t float) :=
  {| graph := {[ name nd := nd ]}; default_precision := fixed_16_6 |}.

Definition weight_of {T} (d : T) : WeightVariable T :=
  {| data := d; data_unquantized := None; quantizer := None |}.

(** An affine layer named [nm] that reads [input]. *)
Definition batchnorm {T} (cls nm input : string) (scale bias : T) : node T :=
  {| class_name := cls; name := nm; inputs := [input]; outputs := [nm];
     attributes := {[ "name" := AStr nm ]};
     weights := {[ "scale" := weight_of scale; "bias" := weight_of bias ]};
     output_variable := variable_of fixed_16_6 |}.

(** A consumer of the tensor [input]. *)
Definition activation {T} (nm input : string) : node T :=
  {| class_name := "Activation"; name := nm; inputs := [input]; outputs := [nm];
     attributes := {[ "name" := AStr nm ]}; weights := ∅;
     output_variable := variable_of fixed_16_6 |}.

(** The chain [fc1_alpha -> bn1 -> relu1] with the weights [(2, 1)] and
    [(3, 0)]. *)
Definition chain : HLSModel (list Z) :=
  {| graph := {[ "fc1_alpha" := batchnorm "ApplyAlpha" "fc1_alpha" "fc1" [2] [1];
                 "bn1" := batchnorm "BatchNormalization" "bn1" "fc1_alpha" [3] [0];
                 "relu1" := activation "relu1" "bn1" ]};
     default_precision := fixed_16_6 |}.

Definition bn1 : node (list Z) :=
  batchnorm "BatchNormalization" "bn1" "fc1_alpha" [3] [0].

(** The same chain on float64 arrays, with the weights [(3, 1)] and
    [(0.1, 0)]; [0x1.999999999999ap-4] is the float64 nearest to 0.1. *)
Definition fchain : HLSModel (list float) :=
  {| graph := {[ "fc1_alpha" :=
                   batchnorm "ApplyAlpha" "fc1_alpha" "fc1" [3%float] [1%float];
                 "bn1" :=
                   batchnorm "BatchNormalization" "bn1" "fc1_alpha"
                     [0x1.999999999999ap-4%float] [0%float];
                 "relu1" := activation "relu1" "bn1" ]};
     default_precision := fixed_16_6 |}.

Definition fbn1 : node (list float) :=
  batchnorm "BatchNormalization" "bn1" "fc1_alpha"
    [0x1.999999999999ap-4%float] [0%float].

End Example.

(** The fields [OutputRoundingSaturationMode] is configured with, in the
    order [precision_string_modify] writes them, the unset ones left out. *)
Definition configured_fields (self : OutputRoundingSaturationMode.pass)
  : list string :=
  omap id [OutputRoundingSaturationMode.rounding_mode self;
           OutputRoundingSaturationMode.saturation_mode self;
           Str.of_Z <$> OutputRoundingSaturationMode.saturation_bits self].

(** The text put in front of a closing bracket: a comma and the field, for
    each configured field. *)
Definition mode_text (self : OutputRoundingSaturationMode.pass) : string :=
  String.concat "" (map (fun m => "," +:+ m) (configured_fields self)).

Module Example_more.

Import OutputRoundingSaturationMode.

(** Round with [AP_RND], and do not touch the saturation. *)
Definition round_plain : pass :=
  {| layers := ["Dense"]; rounding_mode := Some "AP_RND";
     saturation_mode := None; saturation_bits := None |}.

(** Saturate, and leave the rounding unset. *)
Definition saturate : pass :=
  {| layers := ["Dense"]; rounding_mode := None;
     saturation_mode := Some "AP_SAT"; saturation_bits := Some 0 |}.

(** A fixed-point type that already rounds. *)
Definition fixed_rounding : precision :=
  Typed (FixedPrecisionType 16 6 true (Some "AP_RND_CONV") None None).

End Example_more.

(** The state in which [QKerasFactorizeAlpha.transform] on the node [nd]
    leaves a quantizer object of the node: the object of the weight holds
    the QKeras function [fn], and the objects of the two quantizer
    attributes have the [alpha] 1. *)
Definition factorized_quantizer {T} (nd : node T) (fn : qkeras_quantizer T)
    (q : Quantizer T) : Quantizer T :=
  {| oid := oid q;
     alpha := if is_quantizer_attr nd q then Some (PyNum 1) else alpha q;
     quantizer_fn := if is_object (weight_oid nd) q then Some fn
                     else quantizer_fn q;
     quantize := quantize q |}.

(** The QKeras function the pass rebuilds from the function [qf]: the same
    class, and the configuration with [alpha] set to 1. *)
Definition rebuilt {T} (qf : qkeras_quantizer T) : qkeras_quantizer T :=
  from_config qf (<["alpha" := PyNum 1]> (get_config qf)).

(** The node [nd] as [QKerasFactorizeAlpha.transform] leaves it, where [w]
    is its weight, [hq] the quantizer of the weight, [qf] the QKeras function
    of the quantizer and [new_weights] the unscaled weights. *)
Definition factorized_node {T} (nd : node T) (w : WeightVariable T)
    (hq : Quantizer T) (qf : qkeras_quantizer T) (new_weights : T) : node T :=
  {| class_name := class_name nd; name := name nd; inputs := inputs nd;
     outputs := outputs nd;
     attributes :=
       map_attr (factorized_quantizer nd (rebuilt qf)) <$> attributes nd;
     weights :=
       <["weight" :=
           {| data := quantize hq (rebuilt qf) new_weights;
              data_unquantized := data_unquantized w;
              quantizer := Some (factorized_quantizer nd (rebuilt qf) hq) |}]>
         (map_weight (factorized_quantizer nd (rebuilt qf)) <$> weights nd);
     output_variable := output_variable nd |}.

Module Example_factorize.

Import Example.

(** The layer [qdense] without the attribute ['name']. *)
Definition qdense_unnamed : node (ndarray.t float) :=
  set_attributes qdense (delete "name" (attributes qdense)).

(** A batch normalization that reads the output of [qdense]. *)
Definition bn_after_fc1 : node (ndarray.t float) :=
  batchnorm "BatchNormalization" "bn1" "fc1"
    {| ndarray.shape := [3]%nat; ndarray.flat := [3%float; 3%float; 3%float] |}
    bias.

Definition qmodel : HLSModel (ndarray.t float) :=
  {| graph := {[ "fc1" := qdense; "bn1" := bn_after_fc1 ]};
     default_precision := fixed_16_6 |}.

(** A quantizer object with the number 2 as [alpha], and the layer [qdense]
    with this object for its weight. *)
Definition alpha_2 : Quantizer (ndarray.t float) :=
  {| oid := 1; alpha := Some (PyNum 2);
     quantizer_fn :=
       Some {| get_config := {[ "alpha" := PyNum 2 ]}; qkeras_call := binary |};
     quantize := encode |}.

Definition qdense_numeric : node (ndarray.t float) :=
  set_weights
    (set_attributes qdense
       (<["weight_quantizer" := AQuantizer alpha_2]> (attributes qdense)))
    (<["weight" := {| data := signs kernel; data_unquantized := Some kernel;
                      quantizer := Some alpha_2 |}]> (weights qdense)).

(** A kernel of the shape (3, 2), whose last dimension does not agree with
    the three channels of the scale, and the layer [qdense] with this
    kernel. *)
Definition kernel_3_2 : ndarray.t float :=
  {| ndarray.shape := [3; 2]%nat; ndarray.flat := ndarray.flat kernel |}.

Definition qdense_transposed : node (ndarray.t float) :=
  set_weights qdense
    (<["weight" := {| data := signs_po2 kernel_3_2;
                      data_unquantized := Some kernel_3_2;
                      quantizer := Some auto_po2 |}]> (weights qdense)).

End Example_factorize.

Module Example_fuse.

Import Example.

(** Three affine layers in a row, [bn0 -> bn1 -> bn2], with the weights
    [(2, 1)], [(3, 0)] and [(5, 7)]. *)
Definition chain3 : HLSModel (list Z) :=
  {| graph := {[ "bn0" := batchnorm "BatchNormalization" "bn0" "fc1" [2] [1];
                 "bn1" := batchnorm "BatchNormalization" "bn1" "bn0" [3] [0];
                 "bn2" := batchnorm "BatchNormalization" "bn2" "bn1" [5] [7] ]};
     default_precision := fixed_16_6 |}.

(** Two affine layers whose scales have two and three entries. *)
Definition mismatched : HLSModel (list Z) :=
  {| graph := {[ "bn0" := batchnorm "BatchNormalization" "bn0" "fc1" [2; 2] [1; 1];
                 "bn1" := batchnorm "BatchNormalization" "bn1" "bn0"
                            [3; 3; 3] [0; 0; 0] ]};
     default_precision := fixed_16_6 |}.

End Example_fuse.

(** * Properties *)

(** ** The error monad *)

Lemma rbind_Ok {A B} (m : result A) (k : A -> result B) (b : B) :
  rbind m k = Ok b -> exists a, m = Ok a /\ k a = Ok b.
Proof. destruct m as [e|a]; simpl; [discriminate | eauto]. Qed.

Lemma getitem_Ok {A} (d : gmap string A) (k : string) (a : A) :
  getitem d k = Ok a <-> d !! k = Some a.
Proof.
  unfold getitem. destruct (d !! k); split; intros E;
    try discriminate; injection E as ->; reflexivity.
Qed.

Lemma deref_Ok {A} (o : option A) (a : A) : deref o = Ok a <-> o = Some a.
Proof.
  destruct o; split; intros E; try discriminate; injection E as ->; reflexivity.
Qed.

Lemma first_Ok {A} (l : list A) (a : A) : first l = Ok a <-> head l = Some a.
Proof.
  destruct l; split; intros E; try discriminate; injection E as ->; reflexivity.
Qed.

(** ** Strings *)

#[local] Arguments String.append !_ _ / : simpl nomatch.

Lemma append_assoc (x y z : string) : (x +:+ y) +:+ z = x +:+ (y +:+ z).
Proof. induction x as [|c x IH]; simpl; [reflexivity | by rewrite IH]. Qed.

Lemma append_nil_r (x : string) : x +:+ "" = x.
Proof. induction x as [|c x IH]; simpl; [reflexivity | by rewrite IH]. Qed.

Lemma prefix_append (a y : string) : String.prefix a (a +:+ y) = true.
Proof.
  induction a as [|c a IH]; simpl.
  - by destruct y.
  - destruct (ascii_dec c c); [exact IH | congruence].
Qed.

Lemma prefix_split (a t : string) :
  String.prefix a t = true -> exists y, t = a +:+ y.
Proof.
  revert t. induction a as [|c a IH]; intros t Hp.
  - by exists t.
  - destruct t as [|d t]; simpl in Hp; [discriminate|].
    destruct (ascii_dec c d) as [->|]; [|discriminate].
    destruct (IH _ Hp) as [y ->]. by exists y.
Qed.

Lemma contains_prefix (a t : string) :
  String.prefix a t = true -> Str.contains a t = true.
Proof. intros Hp. destruct t; simpl in *; by rewrite Hp. Qed.

Lemma contains_cons (a t : string) (c : ascii) :
  Str.contains a t = true -> Str.contains a (String c t) = true.
Proof. intros Hc. cbn [Str.contains]. rewrite Hc. apply orb_true_r. Qed.

(** [a in t] holds exactly when [t] is [a] between two strings. *)
Lemma contains_iff (a t : string) :
  Str.contains a t = true <-> exists x y, t = x +:+ a +:+ y.
Proof.
  split.
  - induction t as [|c t IH]; intros Hc; cbn [Str.contains] in Hc.
    + rewrite orb_false_r in Hc. destruct (prefix_split _ _ Hc) as [y ->].
      by exists "", y.
    + apply orb_true_iff in Hc as [Hp|Hc].
      * destruct (prefix_split _ _ Hp) as [y Hy]. by exists "", y.
      * destruct (IH Hc) as (x & y & ->). by exists (String c x), y.
  - intros (x & y & ->). induction x as [|c x IH]; simpl.
    + apply contains_prefix, prefix_append.
    + apply (contains_cons _ _ c) in IH. exact IH.
Qed.

Lemma contains_trans (a b t : string) :
  Str.contains a b = true -> Str.contains b t = true -> Str.contains a t = true.
Proof.
  rewrite !contains_iff. intros (x & y & ->) (x' & y' & ->).
  exists (x' +:+ x), (y +:+ y'). by rewrite !append_assoc.
Qed.

Lemma contains_refl (a : string) : Str.contains a a = true.
Proof. apply contains_iff. exists "", "". simpl. by rewrite append_nil_r. Qed.

Lemma contains_app_r (a x t : string) :
  Str.contains a t = true -> Str.contains a (x +:+ t) = true.
Proof.
  rewrite !contains_iff. intros (u & v & ->).
  exists (x +:+ u), v. by rewrite append_assoc.
Qed.

Lemma contains_app_l (a t y : string) :
  Str.contains a t = true -> Str.contains a (t +:+ y) = true.
Proof.
  rewrite !contains_iff. intros (u & v & ->).
  exists u, (v +:+ y). by rewrite !append_assoc.
Qed.

(** An element of a list occurs in the list joined by any separator. *)
Lemma contains_join (sep a : string) (l : list string) :
  a ∈ l -> Str.contains a (Str.join sep l) = true.
Proof.
  unfold Str.join. induction l as [|x l IH]; intros Hin.
  - by apply elem_of_nil in Hin.
  - apply elem_of_cons in Hin as [->|Hin].
    + destruct l as [|x' l]; simpl.
      * apply contains_refl.
      * apply contains_app_l, contains_refl.
    + destruct l as [|x' l]; [by apply elem_of_nil in Hin|].
      change (String.concat sep (x :: x' :: l))
        with (x +:+ sep +:+ String.concat sep (x' :: l)).
      by apply contains_app_r, contains_app_r, IH.
Qed.

Lemma elem_iff (x : string) (l : list string) : Str.elem x l = true <-> x ∈ l.
Proof.
  unfold Str.elem. rewrite existsb_exists. split.
  - intros (y & Hy & E). apply String.eqb_eq in E as ->. by apply list_elem_of_In.
  - intros Hin. exists x. split; [by apply list_elem_of_In | apply String.eqb_refl].
Qed.

(** [replace] puts the new string wherever the character stood. *)
Lemma replace_contains (c : ascii) (new s : string) :
  Str.contains (String c "") s = true ->
  Str.contains new (Str.replace c new s) = true.
Proof.
  induction s as [|x s IH]; simpl; [discriminate|].
  destruct (ascii_dec c x) as [->|Hne].
  - intros _. rewrite Ascii.eqb_refl. apply contains_app_l, contains_refl.
  - rewrite orb_false_l. intros Hc. destruct (Ascii.eqb_spec x c) as [->|_].
    + apply contains_app_l, contains_refl.
    + apply contains_cons, IH, Hc.
Qed.

(** Without the character there is nothing to replace. *)
Lemma replace_absent (c : ascii) (new s : string) :
  Str.contains (String c "") s = false -> Str.replace c new s = s.
Proof.
  induction s as [|x s IH]; simpl; [done|].
  destruct (ascii_dec c x) as [->|Hne]; [by destruct s|].
  rewrite orb_false_l. intros Hc. destruct (Ascii.eqb_spec x c) as [->|_]; [done|].
  by rewrite IH.
Qed.

(** ** OutputRoundingSaturationMode *)

Section OutputRoundingSaturationMode_properties.
Context {T : Type}.
Import OutputRoundingSaturationMode.

Implicit Types (self : pass) (model : HLSModel T) (nd : node T).

(** The pass has nothing to do on a node whose type shows every configured
    mode. *)
Lemma match_covered self nd :
  (forall rm, rounding_mode self = Some rm ->
     Str.contains rm (str_precision (get_output_precision nd)) = true) ->
  (forall sm, saturation_mode self = Some sm ->
     Str.contains sm (str_precision (get_output_precision nd)) = true) ->
  match_ self nd = false.
Proof.
  intros Hr Hs. unfold match_.
  destruct (rounding_mode self) as [rm|]; destruct (saturation_mode self) as [sm|];
    rewrite ?(Hr _ eq_refl), ?(Hs _ eq_refl); simpl; apply andb_false_r.
Qed.

Lemma get_output_precision_set nd p :
  get_output_precision (set_output_precision nd p) = p.
Proof. reflexivity. Qed.

Lemma get_output_precision_set_attr nd key v :
  get_output_precision (set_attr nd key v) = get_output_precision nd.
Proof. reflexivity. Qed.

(** The descriptor [transform] builds for a fixed-point type prints the
    configured modes. *)
Lemma str_fixed_contains (w i : Z) (s : bool) (rm sm : option string)
    (sb : option Z) (m : string) :
  rm = Some m \/ sm = Some m ->
  Str.contains m (str_PrecisionType (FixedPrecisionType w i s rm sm sb)) = true.
Proof.
  intros Hm. unfold str_PrecisionType.
  do 3 apply contains_app_r. apply contains_app_l, contains_join.
  apply list_elem_of_omap. exists (Some m). split; [|reflexivity].
  destruct Hm as [-> | ->]; set_solver.
Qed.

(** The suffix [precision_string_modify] writes holds the configured modes. *)
Lemma precision_string_modify_contains self pstr (m : string) :
  rounding_mode self = Some m \/ saturation_mode self = Some m ->
  Str.contains ">" pstr = true ->
  Str.contains m (precision_string_modify self pstr) = true.
Proof.
  intros Hm Hc. unfold precision_string_modify.
  eapply contains_trans; [|apply replace_contains, Hc].
  destruct Hm as [-> | ->].
  - destruct (saturation_mode self), (saturation_bits self);
      rewrite ?append_assoc; simpl;
      apply contains_cons, contains_prefix, prefix_append.
  - destruct (rounding_mode self) as [rm|].
    + destruct (saturation_bits self);
        rewrite ?append_assoc; simpl;
        apply contains_cons, contains_app_r; simpl;
        apply contains_cons, contains_prefix, prefix_append.
    + destruct (saturation_bits self);
        rewrite ?append_assoc; simpl;
        apply contains_cons, contains_prefix, prefix_append.
Qed.

(** On a fixed-point type [transform] returns, with the width, the integer
    bits and the sign of the old type and the modes of the pass. *)
Lemma transform_fixed self model nd (w i : Z) (s : bool) (rm sm : option string)
    (sb : option Z) :
  get_output_precision nd = Typed (FixedPrecisionType w i s rm sm sb) ->
  let newtype :=
    Typed (FixedPrecisionType w i s (rounding_mode self) (saturation_mode self)
             (saturation_bits self)) in
  let nd1 := set_output_precision nd newtype in
  transform self model nd =
  Ok (if is_not_None (get_attr nd "accum_t")
      then set_attr nd1 "accum_t" (attr_of_precision newtype) else nd1,
      false).
Proof. intros E. unfold transform. rewrite E. reflexivity. Qed.

(** C7: [match] is true exactly when the node's class name or its name is in
    [layers] and a configured mode is missing from the node's output type:
    the rounding mode is set and does not occur in it, or the saturation mode
    is set and does not occur in it.  With an empty [layers] no node is
    matched. *)
Theorem ORSM_match_iff self nd :
  (match_ self nd = true <->
   (class_name nd ∈ layers self \/ name nd ∈ layers self) /\
   ((exists rm, rounding_mode self = Some rm /\
       Str.contains rm (str_precision (get_output_precision nd)) = false) \/
    (exists sm, saturation_mode self = Some sm /\
       Str.contains sm (str_precision (get_output_precision nd)) = false))) /\
  (forall rm sm sb,
     match_ {| layers := []; rounding_mode := rm; saturation_mode := sm;
               saturation_bits := sb |} nd = false).
Proof.
  split; [|reflexivity].
  unfold match_. rewrite andb_true_iff, orb_true_iff, !elem_iff.
  apply and_iff_compat_l.
  destruct (rounding_mode self) as [rm|], (saturation_mode self) as [sm|]; simpl;
    rewrite ?orb_true_iff, ?negb_true_iff; split;
    try (intros [H | H]); try (intros H); eauto;
    repeat match goal with
    | H : _ \/ _ |- _ => destruct H
    | H : exists _, _ |- _ => destruct H as (? & ? & ?)
    end; simplify_eq; eauto; try discriminate.
Qed.

(** C3: a node whose output type is an integer descriptor makes [transform]
    raise [UnboundLocalError], whatever the pass and the rest of the node:
    the branch for integer types binds [newprecision], and the statements
    after the branch read [newtype]. *)
Theorem ORSM_transform_integer_unbound self model nd (w : Z) (s : bool)
    (rm sm : option string) (sb : option Z) :
  transform self model
    (set_output_precision nd (Typed (IntegerPrecisionType w s rm sm sb)))
  = Raise UnboundLocalError.
Proof. reflexivity. Qed.

(** C8, as the code has it: on an output type that is a string without a
    closing bracket, [transform] does not fail.  It returns [False], leaves
    the string as it was, and changes nothing of the node but [accum_t],
    which it sets to that string when it was not [None].  On an output type
    that is [None], neither a descriptor nor a string, [transform] raises
    [AttributeError]. *)
Theorem ORSM_transform_unbracketed self model nd :
  (forall pstr,
     get_output_precision nd = Untyped pstr ->
     Str.contains ">" pstr = false ->
     exists nd',
       transform self model nd = Ok (nd', false) /\
       get_output_precision nd' = Untyped pstr /\
       nd' = if is_not_None (get_attr nd "accum_t")
             then set_attr nd "accum_t" (AStr pstr) else nd) /\
  (get_output_precision nd = Unset ->
   transform self model nd = Raise AttributeError).
Proof.
  split.
  - intros pstr E Hc. unfold transform. rewrite E.
    cbn [transform_locals rbind Ok].
    unfold precision_string_modify. rewrite (replace_absent _ _ _ Hc).
    assert (Hnd : set_output_precision nd (Untyped pstr) = nd).
    { destruct nd as [? ? ? ? ? ? [? ? ?]]. unfold get_output_precision in E.
      simpl in E. subst. reflexivity. }
    rewrite Hnd. eexists. split; [reflexivity|].
    cbn [attr_of_precision]. split; [|reflexivity].
    by destruct (is_not_None (get_attr nd "accum_t")).
  - intros E. unfold transform. by rewrite E.
Qed.

(** C4, as the code has it: on a node whose output type is a fixed-point
    descriptor or a string with a closing bracket, a pass that matches
    transforms the node, and does not match the transformed node. *)
Theorem ORSM_idempotent self model nd :
  takes_modes (get_output_precision nd) = true ->
  match_ self nd = true ->
  exists nd',
    transform self model nd = Ok (nd', false) /\ match_ self nd' = false.
Proof.
  intros Ht _. unfold transform.
  destruct (get_output_precision nd) as [[w s rm sm sb|w i s rm sm sb]|pstr|] eqn:E;
    simpl in Ht; [discriminate| | |discriminate]; cbn [transform_locals rbind Ok];
    (eexists; split; [reflexivity|]); apply match_covered; intros m Hm;
    match goal with
    | |- context [if ?c then _ else _] =>
        destruct c;
        rewrite ?get_output_precision_set_attr, get_output_precision_set
    end; cbn [str_precision];
    first [ apply str_fixed_contains; rewrite Hm; auto
          | apply precision_string_modify_contains; auto ].
Qed.

End OutputRoundingSaturationMode_properties.

(** C8: the pass of the example, on a dense layer whose output type is the
    string ['float'], returns [False] and changes nothing but [accum_t]:
    no error is raised. *)
Lemma ORSM_unbracketed_counterexample :
  let nd := Example.dense (Untyped "float") in
  Str.contains ">" "float" = false /\
  OutputRoundingSaturationMode.transform Example.round_dense (Example.model_of nd) nd
  = Ok (set_attr nd "accum_t" (AStr "float"), false).
Proof. split; reflexivity. Qed.

Lemma ORSM_transform_unbracketed_witness :
  let nd := Example.dense (Untyped "float") in
  let nd0 := Example.dense Unset in
  OutputRoundingSaturationMode.transform Example.round_dense
    (Example.model_of nd) nd = Ok (set_attr nd "accum_t" (AStr "float"), false) /\
  get_attr nd "accum_t" = AStr "ap_fixed<24,12>" /\
  OutputRoundingSaturationMode.transform Example.round_dense
    (Example.model_of nd0) nd0 = Raise AttributeError.
Proof.
  split; [|split; [reflexivity|]].
  - destruct (proj1 (ORSM_transform_unbracketed Example.round_dense
                       (Example.model_of (Example.dense (Untyped "float")))
                       (Example.dense (Untyped "float")))
                "float" eq_refl eq_refl) as (nd' & Ht & _ & ->).
    exact Ht.
  - exact (proj2 (ORSM_transform_unbracketed Example.round_dense
                    (Example.model_of (Example.dense Unset))
                    (Example.dense Unset)) eq_refl).
Defined.

(** C4: on the layer with the output type ['float'] the pass matches, its
    [transform] returns, and the pass matches the transformed node again. *)
Lemma ORSM_idempotent_counterexample :
  let nd := Example.dense (Untyped "float") in
  OutputRoundingSaturationMode.match_ Example.round_dense nd = true /\
  exists nd',
    OutputRoundingSaturationMode.transform Example.round_dense
      (Example.model_of nd) nd = Ok (nd', false) /\
    OutputRoundingSaturationMode.match_ Example.round_dense nd' = true.
Proof. split; [reflexivity|]. eexists. split; reflexivity. Qed.

Lemma ORSM_idempotent_witness :
  let nd := Example.dense Example.fixed_16_6 in
  exists nd',
    OutputRoundingSaturationMode.transform Example.round_dense
      (Example.model_of nd) nd = Ok (nd', false) /\
    OutputRoundingSaturationMode.match_ Example.round_dense nd' = false.
Proof.
  exact (ORSM_idempotent Example.round_dense
           (Example.model_of (Example.dense Example.fixed_16_6))
           (Example.dense Example.fixed_16_6) eq_refl eq_refl).
Defined.

(** ** Quantizer objects *)

Section Objects.
Context {T : Type}.

Implicit Types (nd : node T) (q : Quantizer T) (a : attr T)
  (w : WeightVariable T) (g : Quantizer T -> Quantizer T).

Lemma map_attr_compose g1 g2 a :
  map_attr g1 (map_attr g2 a) = map_attr (fun q => g1 (g2 q)) a.
Proof. by destruct a. Qed.

Lemma map_attr_ext g1 g2 a :
  (forall q, g1 q = g2 q) -> map_attr g1 a = map_attr g2 a.
Proof. intros E. destruct a; simpl; by rewrite ?E. Qed.

Lemma map_attr_id a : map_attr (fun q => q) a = a.
Proof. by destruct a. Qed.

Lemma map_weight_compose g1 g2 w :
  map_weight g1 (map_weight g2 w) = map_weight (fun q => g1 (g2 q)) w.
Proof. destruct w as [d du [q|]]; reflexivity. Qed.

Lemma map_weight_ext g1 g2 w :
  (forall q, g1 q = g2 q) -> map_weight g1 w = map_weight g2 w.
Proof. intros E. destruct w as [d du [q|]]; unfold map_weight; simpl; by rewrite ?E. Qed.

Lemma map_weight_id w : map_weight (fun q => q) w = w.
Proof. destruct w as [d du [q|]]; reflexivity. Qed.

(** A change of the quantizer objects keeps the kind of an attribute, and
    its identity when it keeps the identity of the objects. *)
Lemma takes_alpha_map_attr g a : takes_alpha (map_attr g a) = takes_alpha a.
Proof. by destruct a. Qed.

Lemma is_not_None_map_attr g a : is_not_None (map_attr g a) = is_not_None a.
Proof. by destruct a. Qed.

Lemma attr_oid_map_attr g a :
  (forall q, oid (g q) = oid q) -> attr_oid (map_attr g a) = attr_oid a.
Proof. intros E. destruct a; simpl; by rewrite ?E. Qed.

Lemma map_attr_not_quantizer g a :
  (forall q, a <> AQuantizer q) -> map_attr g a = a.
Proof. intros Hq. destruct a; try reflexivity. by destruct (Hq q). Qed.

Lemma oid_written (id : nat) (f : Quantizer T -> Quantizer T) q :
  (forall q, oid (f q) = oid q) -> oid (written id f q) = oid q.
Proof. intros E. unfold written. destruct (oid q =? id)%nat; by rewrite ?E. Qed.

(** An assignment to an object is seen through every attribute and every
    weight. *)
Lemma get_attr_write_object nd (id : nat) (f : Quantizer T -> Quantizer T)
    (key : string) :
  get_attr (write_object nd id f) key = map_attr (written id f) (get_attr nd key).
Proof.
  unfold get_attr, write_object. cbn [attributes set_weights set_attributes].
  rewrite lookup_fmap. by destruct (attributes nd !! key).
Qed.

Lemma weights_write_object nd (id : nat) (f : Quantizer T -> Quantizer T)
    (role : string) :
  weights (write_object nd id f) !! role
  = map_weight (written id f) <$> weights nd !! role.
Proof. unfold write_object. cbn [weights set_weights]. apply lookup_fmap. Qed.

(** [alpha_written] as one change of all the quantizer objects. *)
Lemma alpha_written_eq nd (key : string) :
  alpha_written nd key =
  let g q := if is_object (attr_oid (get_attr nd key)) q
             then set_alpha q (PyNum 1) else q in
  set_weights (set_attributes nd (map_attr g <$> attributes nd))
    (map_weight g <$> weights nd).
Proof.
  unfold alpha_written. destruct (attr_oid (get_attr nd key)) as [id|]; simpl.
  - reflexivity.
  - destruct nd as [c n i o at_ ws v]. unfold set_weights, set_attributes. simpl.
    f_equal.
    + rewrite <- (map_fmap_id at_) at 1. apply map_fmap_ext.
      intros k a _. symmetry. apply map_attr_id.
    + rewrite <- (map_fmap_id ws) at 1. apply map_fmap_ext.
      intros k w _. symmetry. apply map_weight_id.
Qed.

Lemma get_attr_alpha_written nd (key k : string) :
  get_attr (alpha_written nd key) k =
  map_attr (fun q => if is_object (attr_oid (get_attr nd key)) q
                     then set_alpha q (PyNum 1) else q) (get_attr nd k).
Proof.
  rewrite alpha_written_eq. unfold get_attr.
  cbn [attributes set_weights set_attributes].
  rewrite lookup_fmap. by destruct (attributes nd !! k).
Qed.

Lemma get_attr_set_weights nd (ws : gmap string (WeightVariable T)) (k : string) :
  get_attr (set_weights nd ws) k = get_attr nd k.
Proof. reflexivity. Qed.

End Objects.

(** ** QKerasFactorizeAlpha *)

Section QKerasFactorizeAlpha_properties.
Context {T : Type} `{Arith T}.
Import QKerasFactorizeAlpha.

Implicit Types (model : HLSModel (ndarray.t T)) (nd : node (ndarray.t T))
  (q : Quantizer (ndarray.t T)) (w : WeightVariable (ndarray.t T))
  (qf : qkeras_quantizer (ndarray.t T)).

Lemma has_alpha_ne_1_iff (a : attr (ndarray.t T)) :
  has_alpha_ne_1 a = true <->
  exists q v, a = AQuantizer q /\ alpha q = Some v /\ ne_1 v = true.
Proof.
  split.
  - destruct a as [| | | | |q]; simpl; try discriminate.
    destruct (alpha q) as [v|] eqn:E; [|discriminate]. eauto.
  - intros (q & v & -> & E & Hv). simpl. by rewrite E.
Qed.

(** The test [is not None] that guards [hasattr] adds nothing to it. *)
Lemma has_quant_and_alpha (a : attr (ndarray.t T)) :
  is_not_None a && (if is_not_None a then has_alpha_ne_1 a else false)
  = has_alpha_ne_1 a.
Proof. by destruct a. Qed.

Lemma match_unfold nd :
  match_ nd =
  Str.elem (class_name nd) ["Dense"; "Conv1D"; "Conv2D"] &&
  (has_alpha_ne_1 (get_attr nd "weight_quantizer") ||
   has_alpha_ne_1 (get_attr nd "bias_quantizer")).
Proof. unfold match_. by rewrite !has_quant_and_alpha. Qed.

(** C6: [match] is true exactly when the node's class is [Dense], [Conv1D] or
    [Conv2D] and the weight quantizer or the bias quantizer is a quantizer
    object that has an [alpha] different from 1.  A quantizer without an
    [alpha] counts as one whose [alpha] is 1. *)
Theorem QFA_match_iff nd :
  (match_ nd = true <->
   class_name nd ∈ ["Dense"; "Conv1D"; "Conv2D"] /\
   ((exists q v, get_attr nd "weight_quantizer" = AQuantizer q /\
                 alpha q = Some v /\ ne_1 v = true) \/
    (exists q v, get_attr nd "bias_quantizer" = AQuantizer q /\
                 alpha q = Some v /\ ne_1 v = true))) /\
  (forall q,
     has_alpha_ne_1 (AQuantizer q) =
     match alpha q with
     | Some _ => has_alpha_ne_1 (AQuantizer q)
     | None => has_alpha_ne_1 (AQuantizer (set_alpha q (PyNum 1)))
     end).
Proof.
  split.
  - rewrite match_unfold, andb_true_iff, elem_iff, orb_true_iff.
    by rewrite !has_alpha_ne_1_iff.
  - intros q. simpl. by destruct (alpha q).
Qed.

(** The guarded assignment [if has_quant: node.attributes[key].alpha = 1]:
    it raises on an integer, a string or a list, and is [alpha_written]
    otherwise. *)
Lemma guarded_assign_eq nd (key : string) :
  (if is_not_None (get_attr nd key) then assign_alpha_1 nd key else Ok nd)
  = if takes_alpha (get_attr nd key) then Ok (alpha_written nd key)
    else Raise AttributeError.
Proof.
  unfold assign_alpha_1, alpha_written, getitem, get_attr.
  destruct (attributes nd !! key) as [[]|]; reflexivity.
Qed.

(** The state of a quantizer object after the three assignments of
    [factorize]: [quantizer_fn] on the object of the weight, [alpha] on the
    objects of the two attributes. *)
Lemma three_writes nd (hq q : Quantizer (ndarray.t T)) qf (w : WeightVariable (ndarray.t T)) :
  weights nd !! "weight" = Some w -> quantizer w = Some hq ->
  (let g1 := written (oid hq) (fun q => set_quantizer_fn q (rebuilt qf)) in
   let g2 q := if is_object (attr_oid (get_attr nd "weight_quantizer")) q
               then set_alpha q (PyNum 1) else q in
   let g3 q := if is_object (attr_oid (get_attr nd "bias_quantizer")) q
               then set_alpha q (PyNum 1) else q in
   g3 (g2 (g1 q))) = factorized_quantizer nd (rebuilt qf) q.
Proof.
  intros Ew Ehq. unfold factorized_quantizer, is_quantizer_attr, weight_oid.
  rewrite Ew. simpl. rewrite Ehq. simpl. unfold written.
  destruct q as [i a fnq qz]. cbn [oid].
  destruct (attr_oid (get_attr nd "weight_quantizer")) as [i2|],
    (attr_oid (get_attr nd "bias_quantizer")) as [i3|]; cbn [is_object];
    destruct (i =? oid hq)%nat eqn:E1; cbn [oid set_quantizer_fn set_alpha];
    try (destruct (i =? i2)%nat eqn:E2; cbn [oid set_quantizer_fn set_alpha]);
    try (destruct (i =? i3)%nat eqn:E3; cbn [oid set_quantizer_fn set_alpha]);
    reflexivity.
Qed.

(** [factorize], line by line: it raises where the weight, its quantizer, the
    QKeras function or the data before quantization are missing, where the
    recorded scale is no tensor, where the scale does not broadcast against
    the quantized weights, and where a quantizer attribute takes no [alpha];
    otherwise it returns the scale and leaves the node as [factorized_node]
    describes it. *)
Lemma factorize_unfold nd w (hq : Quantizer (ndarray.t T)) qf
    (wu : ndarray.t T) :
  weights nd !! "weight" = Some w -> quantizer w = Some hq ->
  quantizer_fn hq = Some qf -> data_unquantized w = Some wu ->
  factorize nd =
  let* scale := numpy (call qf wu).2 in
  let* new_weights :=
    ndarray.multiply (ndarray.reciprocal scale) (call qf wu).1 in
  if takes_alpha (get_attr nd "weight_quantizer") &&
     takes_alpha (get_attr nd "bias_quantizer")
  then Ok (factorized_node nd w hq qf new_weights, scale)
  else Raise AttributeError.
Proof.
  intros Ew Ehq Eqf Ewu. unfold factorize, getitem.
  rewrite Ew. cbn [rbind Ok]. rewrite Ehq. cbn [rbind deref Ok].
  rewrite Eqf. cbn [rbind deref Ok]. rewrite Ewu. cbn [rbind deref Ok].
  destruct (call qf wu) as [qweights sc]. cbn [fst snd].
  destruct (numpy sc) as [e|scale]; [reflexivity|]. cbn [rbind Ok].
  destruct (ndarray.multiply (ndarray.reciprocal scale) qweights)
    as [e|new_weights]; [reflexivity|]. cbn [rbind Ok].
  fold (rebuilt qf).
  rewrite weights_write_object, Ew. cbn [fmap option_fmap option_map rbind Ok].
  cbn [quantizer map_weight]. rewrite Ehq. cbn [fmap option_fmap option_map].
  unfold written at 1. rewrite Nat.eqb_refl.
  cbn [deref rbind Ok Quantizer_call quantizer_fn set_quantizer_fn quantize].
  set (g1 := written (oid hq) (fun q => set_quantizer_fn q (rebuilt qf))).
  assert (Hg1 : forall q, oid (g1 q) = oid q).
  { intros q. by apply oid_written. }
  match goal with
  | |- context [set_weights (write_object nd _ _) ?ws] =>
      set (nd2 := set_weights (write_object nd (oid hq)
                                 (fun q => set_quantizer_fn q (rebuilt qf))) ws)
  end.
  assert (A2 : forall k, get_attr nd2 k = map_attr g1 (get_attr nd k)).
  { intros k. unfold nd2. by rewrite get_attr_set_weights, get_attr_write_object. }
  rewrite (guarded_assign_eq nd2), A2, takes_alpha_map_attr.
  destruct (takes_alpha (get_attr nd "weight_quantizer")); [|reflexivity].
  cbn [rbind Ok andb].
  assert (E3 : is_not_None (get_attr nd2 "bias_quantizer")
               = is_not_None (get_attr (alpha_written nd2 "weight_quantizer")
                                "bias_quantizer")).
  { by rewrite get_attr_alpha_written, is_not_None_map_attr. }
  rewrite E3, (guarded_assign_eq (alpha_written nd2 "weight_quantizer")).
  rewrite get_attr_alpha_written, takes_alpha_map_attr, (A2 "bias_quantizer"),
    takes_alpha_map_attr.
  destruct (takes_alpha (get_attr nd "bias_quantizer")); [|reflexivity].
  cbn [rbind Ok]. f_equal. f_equal.
  rewrite (alpha_written_eq (alpha_written nd2 "weight_quantizer")).
  rewrite get_attr_alpha_written, (alpha_written_eq nd2). cbv zeta.
  rewrite !A2.
  rewrite !attr_oid_map_attr
    by first [ exact Hg1 | intros q; destruct (is_object _ q); reflexivity ].
  unfold nd2, write_object, factorized_node, set_weights, set_attributes.
  cbn [class_name name inputs outputs attributes weights output_variable].
  f_equal.
  - rewrite <- !map_fmap_compose. apply map_fmap_ext. intros k a _.
    cbn [compose]. rewrite !map_attr_compose. apply map_attr_ext.
    intros q. exact (three_writes nd hq q qf w Ew Ehq).
  - rewrite !fmap_insert. f_equal.
    + unfold map_weight, set_data. cbn [data data_unquantized quantizer].
      rewrite Ehq. cbn [fmap option_fmap option_map]. f_equal. f_equal.
      exact (three_writes nd hq hq qf w Ew Ehq).
    + rewrite <- !map_fmap_compose. apply map_fmap_ext. intros k w' _.
      cbn [compose]. rewrite !map_weight_compose. apply map_weight_ext.
      intros q. exact (three_writes nd hq q qf w Ew Ehq).
Qed.

(** Where [factorize] returns, it read the weight, its quantizer, the QKeras
    function and the data before quantization, the scale is the tensor the
    function records, and the node is left as [factorized_node] describes
    it. *)
Lemma factorize_Ok nd nd' (scale : ndarray.t T) :
  factorize nd = Ok (nd', scale) ->
  exists w hq qf wu new_weights,
    weights nd !! "weight" = Some w /\ quantizer w = Some hq /\
    quantizer_fn hq = Some qf /\ data_unquantized w = Some wu /\
    numpy (call qf wu).2 = Ok scale /\
    ndarray.multiply (ndarray.reciprocal scale) (call qf wu).1 = Ok new_weights /\
    takes_alpha (get_attr nd "weight_quantizer") = true /\
    takes_alpha (get_attr nd "bias_quantizer") = true /\
    nd' = factorized_node nd w hq qf new_weights.
Proof.
  intros Hf. pose proof Hf as Hf'. unfold factorize in Hf.
  apply rbind_Ok in Hf as (w & Ew%getitem_Ok & Hf).
  apply rbind_Ok in Hf as (hq & Ehq%deref_Ok & Hf).
  apply rbind_Ok in Hf as (qf & Eqf%deref_Ok & Hf).
  apply rbind_Ok in Hf as (wu & Ewu%deref_Ok & _).
  rewrite (factorize_unfold nd w hq qf wu Ew Ehq Eqf Ewu) in Hf'.
  apply rbind_Ok in Hf' as (scale' & Es & Hf').
  apply rbind_Ok in Hf' as (new_weights & Em & Hf').
  destruct (takes_alpha (get_attr nd "weight_quantizer")) eqn:Tw;
    [|discriminate].
  destruct (takes_alpha (get_attr nd "bias_quantizer")) eqn:Tb;
    [|discriminate].
  injection Hf' as <- <-.
  by exists w, hq, qf, wu, new_weights.
Qed.

(** [factorize] returns when the weight has a quantizer with a QKeras
    function and the data before quantization, the recorded scale is a
    tensor that broadcasts against the quantized weights, and both quantizer
    attributes take an [alpha]. *)
Lemma factorize_total nd w (hq : Quantizer (ndarray.t T)) qf
    (wu scale new_weights : ndarray.t T) :
  weights nd !! "weight" = Some w -> quantizer w = Some hq ->
  quantizer_fn hq = Some qf -> data_unquantized w = Some wu ->
  numpy (call qf wu).2 = Ok scale ->
  ndarray.multiply (ndarray.reciprocal scale) (call qf wu).1 = Ok new_weights ->
  takes_alpha (get_attr nd "weight_quantizer") = true ->
  takes_alpha (get_attr nd "bias_quantizer") = true ->
  factorize nd = Ok (factorized_node nd w hq qf new_weights, scale).
Proof.
  intros Ew Ehq Eqf Ewu Es Em Tw Tb.
  rewrite (factorize_unfold nd w hq qf wu Ew Ehq Eqf Ewu), Es. cbn [rbind Ok].
  rewrite Em. cbn [rbind Ok]. by rewrite Tw, Tb.
Qed.

(** What is read from a node that [factorize] has left. *)
Lemma get_attr_factorized nd w (hq : Quantizer (ndarray.t T)) qf
    (new_weights : ndarray.t T) (key : string) :
  get_attr (factorized_node nd w hq qf new_weights) key
  = map_attr (factorized_quantizer nd (rebuilt qf)) (get_attr nd key).
Proof.
  unfold get_attr, factorized_node. cbn [attributes]. rewrite lookup_fmap.
  by destruct (attributes nd !! key).
Qed.

(** The object of a quantizer attribute has the [alpha] 1 afterwards. *)
Lemma factorized_quantizer_alpha nd (fn : qkeras_quantizer (ndarray.t T)) q
    (key : string) :
  key = "weight_quantizer" \/ key = "bias_quantizer" ->
  get_attr nd key = AQuantizer q ->
  alpha (factorized_quantizer nd fn q) = Some (PyNum 1).
Proof.
  intros Hkey Eq. unfold factorized_quantizer, is_quantizer_attr. cbn [alpha].
  destruct Hkey as [-> | ->]; rewrite Eq; cbn [attr_oid is_object];
    rewrite Nat.eqb_refl; by rewrite ?orb_true_r.
Qed.

Lemma has_alpha_ne_1_factorized nd (fn : qkeras_quantizer (ndarray.t T))
    (key : string) :
  key = "weight_quantizer" \/ key = "bias_quantizer" ->
  has_alpha_ne_1 (map_attr (factorized_quantizer nd fn) (get_attr nd key)) = false.
Proof.
  intros Hkey. destruct (get_attr nd key) as [| | | | |q] eqn:Eq; try reflexivity.
  cbn [map_attr has_alpha_ne_1].
  by rewrite (factorized_quantizer_alpha nd fn q key Hkey Eq).
Qed.

Lemma append_length (x y : string) :
  String.length (x +:+ y) = (String.length x + String.length y)%nat.
Proof. induction x as [|c x IH]; simpl; [done | by rewrite IH]. Qed.

(** The name of the new layer is not the name of the node. *)
Lemma append_alpha_ne (s : string) : s +:+ "_alpha" <> s.
Proof.
  intros E. apply (f_equal String.length) in E.
  rewrite append_length in E. simpl in E. lia.
Qed.

(** [make_node] for the kind ['ApplyAlpha']: the class is found in the
    registry and its [initialize] runs. *)
Lemma make_node_ApplyAlpha model (nm : string)
    (attrs : gmap string (attr (ndarray.t T))) (ins : list string) :
  make_node ApplyAlpha.layer_map model "ApplyAlpha" nm attrs ins =
  let* inp := get_input_variable model ins in
  Ok {| class_name := "ApplyAlpha"; name := nm; inputs := ins; outputs := [nm];
        attributes := attrs; weights := ∅;
        output_variable :=
          {| shape := shape inp; dim_names := dim_names inp;
             type_precision := default_precision model |} |}.
Proof.
  unfold make_node, ApplyAlpha.layer_map, getitem.
  rewrite lookup_singleton_eq. cbn [rbind Ok].
  cbn [initialize ApplyAlpha.cls __name__]. unfold ApplyAlpha.initialize.
  by destruct (get_input_variable model ins).
Qed.

(** [transform], once the factorization, the attributes and the input
    variable are known. *)
Lemma transform_steps model nd nd' (scale : ndarray.t T)
    (attrs : gmap string (attr (ndarray.t T))) (inp : ArrayVariable) (o : string) :
  factorize nd = Ok (nd', scale) ->
  alpha_attrs nd' = Ok attrs ->
  head (outputs nd') = Some o ->
  get_input_variable (set_graph model (<[name nd' := nd']> (graph model)))
    (outputs nd') = Ok inp ->
  transform model nd =
  Ok (set_graph model
        (<[name nd' +:+ "_alpha" := alpha_layer model nd' attrs inp scale]>
           (rewire o (name nd' +:+ "_alpha") <$>
              <[name nd' := nd']> (graph model))),
      true).
Proof.
  intros Ef Ea Eo Ei. unfold transform. rewrite Ef. cbn [rbind Ok].
  rewrite Ea. cbn [rbind Ok]. rewrite make_node_ApplyAlpha, Ei. cbn [rbind Ok].
  unfold insert_node. cbn [inputs outputs name ApplyAlpha.add_weights
    add_weights_variable set_weights first].
  unfold alpha_layer, ApplyAlpha.add_weights, add_weights_variable, set_weights.
  cbn [inputs outputs name weights].
  destruct (outputs nd') as [|o' os]; [discriminate|]. injection Eo as ->.
  reflexivity.
Qed.

(** Where [transform] returns, it went through these steps. *)
Lemma transform_Ok model nd model' (b : bool) :
  transform model nd = Ok (model', b) ->
  exists nd' scale attrs inp o,
    factorize nd = Ok (nd', scale) /\ alpha_attrs nd' = Ok attrs /\
    head (outputs nd') = Some o /\
    get_input_variable (set_graph model (<[name nd' := nd']> (graph model)))
      (outputs nd') = Ok inp /\
    b = true /\
    model' =
    set_graph model
      (<[name nd' +:+ "_alpha" := alpha_layer model nd' attrs inp scale]>
         (rewire o (name nd' +:+ "_alpha") <$>
            <[name nd' := nd']> (graph model))).
Proof.
  intros Ht. pose proof Ht as Ht'. unfold transform in Ht.
  apply rbind_Ok in Ht as ([nd' scale] & Ef & Ht).
  apply rbind_Ok in Ht as (attrs & Ea & Ht).
  rewrite make_node_ApplyAlpha in Ht.
  apply rbind_Ok in Ht as (al & Em & Ht).
  apply rbind_Ok in Em as (inp & Ei & Em). injection Em as <-.
  apply rbind_Ok in Ht as (m2 & Eins & _).
  unfold insert_node in Eins.
  apply rbind_Ok in Eins as (o & Eo%first_Ok & _).
  cbn [inputs ApplyAlpha.add_weights add_weights_variable set_weights] in Eo.
  exists nd', scale, attrs, inp, o.
  rewrite (transform_steps _ _ _ _ _ _ _ Ef Ea Eo Ei) in Ht'.
  injection Ht' as <- <-. done.
Qed.

(** Where [transform] returns, the node is in the graph under its name, as
    [factorize] left it and with its readers' wiring. *)
Lemma transform_node model nd model' (b : bool) :
  transform model nd = Ok (model', b) ->
  exists w hq qf wu scale new_weights attrs inp o,
    weights nd !! "weight" = Some w /\ quantizer w = Some hq /\
    quantizer_fn hq = Some qf /\ data_unquantized w = Some wu /\
    numpy (call qf wu).2 = Ok scale /\
    ndarray.multiply (ndarray.reciprocal scale) (call qf wu).1 = Ok new_weights /\
    alpha_attrs (factorized_node nd w hq qf new_weights) = Ok attrs /\
    head (outputs nd) = Some o /\
    graph model' !! name nd
    = Some (rewire o (name nd +:+ "_alpha")
              (factorized_node nd w hq qf new_weights)) /\
    graph model' !! (name nd +:+ "_alpha")
    = Some (alpha_layer model (factorized_node nd w hq qf new_weights)
              attrs inp scale) /\
    forall k, k <> name nd -> k <> name nd +:+ "_alpha" ->
      graph model' !! k = rewire o (name nd +:+ "_alpha") <$> graph model !! k.
Proof.
  intros Ht.
  apply transform_Ok in Ht
    as (nd0 & scale & attrs & inp & o & Ef & Ea & Eo & _ & _ & ->).
  apply factorize_Ok in Ef
    as (w & hq & qf & wu & new_weights & Ew & Ehq & Eqf & Ewu & Es & Em & _ & _ & ->).
  exists w, hq, qf, wu, scale, new_weights, attrs, inp, o.
  cbn [name outputs factorized_node] in *.
  repeat (split; [done|]). cbn [graph set_graph]. split; [|split].
  - rewrite lookup_insert_ne by apply append_alpha_ne.
    by rewrite lookup_fmap, lookup_insert_eq.
  - apply lookup_insert_eq.
  - intros k Hk Hka.
    by rewrite lookup_insert_ne, lookup_fmap, lookup_insert_ne.
Qed.

Lemma match_rewire nd (o n : string) : match_ (rewire o n nd) = match_ nd.
Proof. reflexivity. Qed.

Lemma get_attr_rewire nd (o n key : string) :
  get_attr (rewire o n nd) key = get_attr nd key.
Proof. reflexivity. Qed.

(** C2: where [match] is true and [transform] returns, the node is in the
    graph under its name.  Each of its two quantizer attributes that held a
    quantizer object holds that object with the [alpha] 1, and each that
    held none is as it was; and [match] is false on the node. *)
Theorem QFA_alpha_eliminated model nd model' (b : bool) :
  match_ nd = true ->
  transform model nd = Ok (model', b) ->
  exists nd',
    graph model' !! name nd = Some nd' /\
    (forall key, key = "weight_quantizer" \/ key = "bias_quantizer" ->
       (forall q, get_attr nd key = AQuantizer q ->
          exists q',
            get_attr nd' key = AQuantizer q' /\ alpha q' = Some (PyNum 1) /\
            oid q' = oid q /\ quantize q' = quantize q) /\
       ((forall q, get_attr nd key <> AQuantizer q) ->
          get_attr nd' key = get_attr nd key)) /\
    match_ nd' = false.
Proof.
  intros _ Ht.
  apply transform_node in Ht
    as (w & hq & qf & wu & scale & new_weights & attrs & inp & o
        & _ & _ & _ & _ & _ & _ & _ & _ & Hnd & _).
  eexists. split; [exact Hnd|]. split.
  - intros key Hkey. rewrite get_attr_rewire, get_attr_factorized. split.
    + intros q Eq. rewrite Eq. eexists. split; [reflexivity|].
      split; [|by split].
      exact (factorized_quantizer_alpha nd _ q key Hkey Eq).
    + apply map_attr_not_quantizer.
  - rewrite match_rewire, match_unfold, !get_attr_factorized.
    rewrite !has_alpha_ne_1_factorized by auto.
    apply andb_false_r.
Qed.

(** C5: on a node whose weight has a quantizer with a QKeras function and the
    data before quantization, whose recorded scale is a tensor that
    broadcasts against the quantized weights, whose quantizer attributes
    take an [alpha], whose attribute ['name'] is a string and whose first
    output is named after the node, [transform] returns [True], and the
    graph then holds under the node's name followed by ['_alpha'] a layer of
    class [ApplyAlpha] with that name, with the node's outputs as inputs,
    with the shape of the node's output, with the scale the quantizer
    function records on the data before quantization as its weight
    ['scale'], and with zeros of the shape of the scale as its weight
    ['bias']. *)
Theorem QFA_transform_inserts_ApplyAlpha model nd w
    (hq : Quantizer (ndarray.t T)) qf (wu scale new_weights : ndarray.t T)
    (s : string) :
  weights nd !! "weight" = Some w -> quantizer w = Some hq ->
  quantizer_fn hq = Some qf -> data_unquantized w = Some wu ->
  numpy (call qf wu).2 = Ok scale ->
  ndarray.multiply (ndarray.reciprocal scale) (call qf wu).1 = Ok new_weights ->
  takes_alpha (get_attr nd "weight_quantizer") = true ->
  takes_alpha (get_attr nd "bias_quantizer") = true ->
  get_attr nd "name" = AStr s ->
  head (outputs nd) = Some (name nd) ->
  exists model' al,
    transform model nd = Ok (model', true) /\
    graph model' !! (name nd +:+ "_alpha") = Some al /\
    class_name al = "ApplyAlpha" /\
    name al = name nd +:+ "_alpha" /\
    inputs al = outputs nd /\
    shape (output_variable al) = shape (output_variable nd) /\
    data <$> weights al !! "scale" = Some scale /\
    data <$> weights al !! "bias" = Some (ndarray.zeros (ndarray.shape scale)).
Proof.
  intros Ew Ehq Eqf Ewu Es Em Tw Tb Ename Eout.
  pose proof (factorize_total nd w hq qf wu scale new_weights
                Ew Ehq Eqf Ewu Es Em Tw Tb) as Ef.
  set (nd0 := factorized_node nd w hq qf new_weights) in *.
  assert (Ea : exists attrs, alpha_attrs nd0 = Ok attrs).
  { unfold alpha_attrs, nd0. rewrite get_attr_factorized, Ename. simpl. eauto. }
  destruct Ea as (attrs & Ea).
  assert (Ei : get_input_variable
                 (set_graph model (<[name nd0 := nd0]> (graph model)))
                 (outputs nd0) = Ok (output_variable nd0)).
  { unfold get_input_variable. cbn [outputs name nd0 factorized_node].
    destruct (outputs nd) as [|o os]; [discriminate|]. injection Eout as ->.
    cbn [first rbind Ok graph set_graph]. unfold getitem.
    by rewrite lookup_insert_eq. }
  assert (Eout' : head (outputs nd0) = Some (name nd)) by exact Eout.
  eexists _, _. split; [exact (transform_steps _ _ _ _ _ _ _ Ef Ea Eout' Ei)|].
  cbn [graph set_graph]. rewrite lookup_insert_eq.
  split; [done|]. unfold alpha_layer, ApplyAlpha.add_weights, add_weights_variable.
  cbn. repeat split.
Qed.

(** C10: [transform] returns only on a node whose weight has a quantizer with
    a QKeras function and the data before quantization.  On a node that
    matches with no weight quantizer, neither as an attribute nor on the
    weight, [transform] raises an exception. *)
Theorem QFA_transform_needs_weight_quantizer model nd :
  (forall r, transform model nd = Ok r ->
     exists w hq qf wu,
       weights nd !! "weight" = Some w /\ quantizer w = Some hq /\
       quantizer_fn hq = Some qf /\ data_unquantized w = Some wu) /\
  (match_ nd = true ->
   get_attr nd "weight_quantizer" = ANone ->
   (forall w, weights nd !! "weight" = Some w -> quantizer w = None) ->
   exists e, transform model nd = Raise e).
Proof.
  split.
  - intros [model' b] Ht.
    apply transform_Ok in Ht as (nd0 & scale & _ & _ & _ & Ef & _).
    apply factorize_Ok in Ef as (w & hq & qf & wu & _ & ? & ? & ? & ? & _).
    by exists w, hq, qf, wu.
  - intros _ _ Hw. unfold transform, factorize, getitem.
    destruct (weights nd !! "weight") as [w|] eqn:Ew; [|by eexists].
    cbn [rbind Ok]. rewrite (Hw w eq_refl). by eexists.
Qed.

End QKerasFactorizeAlpha_properties.

Lemma QFA_alpha_eliminated_witness :
  exists model' nd' qw qb,
    QKerasFactorizeAlpha.transform (Example.fmodel_of Example.qdense)
      Example.qdense = Ok (model', true) /\
    graph model' !! "fc1" = Some nd' /\
    get_attr nd' "weight_quantizer" = AQuantizer qw /\
    alpha qw = Some (PyNum 1) /\ oid qw = 1%nat /\
    get_attr nd' "bias_quantizer" = AQuantizer qb /\
    alpha qb = Some (PyNum 1) /\ oid qb = 2%nat /\
    QKerasFactorizeAlpha.match_ nd' = false.
Proof.
  assert (Ht : { model' | QKerasFactorizeAlpha.transform
                            (Example.fmodel_of Example.qdense) Example.qdense
                          = Ok (model', true) }).
  { eexists. vm_compute. reflexivity. }
  destruct Ht as (model' & Ht).
  destruct (QFA_alpha_eliminated (Example.fmodel_of Example.qdense)
              Example.qdense model' true ltac:(vm_compute; reflexivity) Ht)
    as (nd' & Hnd & Hkey & Hm).
  destruct (Hkey "weight_quantizer" (or_introl eq_refl)) as (Hw & _).
  destruct (Hw Example.auto_po2 ltac:(vm_compute; reflexivity))
    as (qw & Eqw & Aw & Ow & _).
  destruct (Hkey "bias_quantizer" (or_intror eq_refl)) as (Hb & _).
  destruct (Hb Example.bias_po2 ltac:(vm_compute; reflexivity))
    as (qb & Eqb & Ab & Ob & _).
  exists model', nd', qw, qb. by repeat split.
Defined.

Lemma QFA_transform_inserts_ApplyAlpha_witness :
  exists model' al,
    QKerasFactorizeAlpha.transform (Example.fmodel_of Example.qdense)
      Example.qdense = Ok (model', true) /\
    graph model' !! "fc1_alpha" = Some al /\
    class_name al = "ApplyAlpha" /\
    name al = "fc1_alpha" /\
    inputs al = ["fc1"] /\
    shape (output_variable al) = [10] /\
    data <$> weights al !! "scale"
    = Some {| ndarray.shape := [1; 3]%nat;
              ndarray.flat := [2%float; 4%float; 8%float] |} /\
    data <$> weights al !! "bias"
    = Some {| ndarray.shape := [1; 3]%nat;
              ndarray.flat := [0%float; 0%float; 0%float] |}.
Proof.
  refine (QFA_transform_inserts_ApplyAlpha (Example.fmodel_of Example.qdense)
            Example.qdense Example.qweight Example.auto_po2 Example.binary_po2
            Example.kernel Example.scale _ "fc1" _ _ _ _ _ _ _ _ _ _);
    vm_compute; reflexivity.
Defined.

Lemma QFA_transform_needs_weight_quantizer_witness :
  QKerasFactorizeAlpha.match_ Example.qbias_only = true /\
  exists e,
    QKerasFactorizeAlpha.transform (Example.fmodel_of Example.qbias_only)
      Example.qbias_only = Raise e.
Proof.
  split; [vm_compute; reflexivity|].
  apply (proj2 (QFA_transform_needs_weight_quantizer
                  (Example.fmodel_of Example.qbias_only) Example.qbias_only));
    [vm_compute; reflexivity | vm_compute; reflexivity |].
  intros w Hw. vm_compute in Hw. by injection Hw as <-.
Defined.

(** ** Arrays *)

Section Arrays.
Context {T : Type} `{Arith T}.

Implicit Types (u v w : list T) (f : T -> T -> T).

Lemma length_1 u : length u = 1%nat -> exists a, u = [a].
Proof. destruct u as [|a [|b u]]; simpl; intros E; try discriminate; eauto. Qed.

Lemma entry_lookup u (i : nat) : length u <> 1%nat -> entry u i = u !! i.
Proof. destruct u as [|a [|b u]]; simpl; intros E; [done | lia | done]. Qed.

(** An array is determined by its entries after broadcasting. *)
Lemma entry_inj u v : (forall i, entry u i = entry v i) -> u = v.
Proof.
  intros E.
  destruct (decide (length u = 1%nat)) as [[a ->]%length_1 | Hu];
    destruct (decide (length v = 1%nat)) as [[b ->]%length_1 | Hv].
  - specialize (E 0%nat). simpl in E. congruence.
  - specialize (E (length v)). rewrite (entry_lookup v) in E by done.
    rewrite lookup_ge_None_2 in E by lia. discriminate.
  - specialize (E (length u)). rewrite (entry_lookup u) in E by done.
    rewrite lookup_ge_None_2 in E by lia. discriminate.
  - apply list_eq. intros i. rewrite <- !entry_lookup by done. apply E.
Qed.

(** The lengths a binary operator accepts, and the length of its result. *)
Lemma binop_length f u v w :
  np.binop f u v = Ok w ->
  (length u = length v /\ length w = length u) \/
  (length u = 1%nat /\ length w = length v) \/
  (length v = 1%nat /\ length w = length u).
Proof.
  unfold np.binop. destruct (Nat.eqb_spec (length u) (length v)) as [E|E].
  - intros [= <-]. left. rewrite length_zip_with. lia.
  - destruct u as [|a [|a' u]]; destruct v as [|b [|b' v]];
      simpl in *; intros Hw; try discriminate; injection Hw as <-;
      simpl; rewrite ?List.length_map; lia.
Qed.

(** Each entry of the result is the operator on the entries of the operands. *)
Lemma binop_entry f u v w (i : nat) :
  np.binop f u v = Ok w ->
  entry w i = a ← entry u i; b ← entry v i; Some (f a b).
Proof.
  unfold np.binop. destruct (Nat.eqb_spec (length u) (length v)) as [E|E].
  - intros [= <-].
    destruct (decide (length u = 1%nat)) as [Hu | Hu].
    + destruct (length_1 u Hu) as [a ->]. destruct (length_1 v) as [b ->]; [lia|].
      reflexivity.
    + rewrite !entry_lookup; rewrite ?length_zip_with; try lia.
      apply lookup_zip_with.
  - destruct u as [|a [|a' u]]; destruct v as [|b [|b' v]];
      simpl in E |- *; intros Hw; try discriminate; try lia; injection Hw as <-;
      rewrite ?entry_lookup by (simpl; rewrite ?List.length_map; lia);
      cbn [entry mbind option_bind]; try reflexivity;
      (destruct i as [|[|i]]; [reflexivity..|]); simpl;
      match goal with
      | |- map ?g ?l !! _ = _ => change (map g l) with (g <$> l)
      end;
      rewrite list_lookup_fmap; by destruct (_ !! i).
Qed.

Lemma binop_broadcasts_inv f u v w (n : nat) :
  np.binop f u v = Ok w -> broadcasts_to n w ->
  broadcasts_to n u /\ broadcasts_to n v.
Proof. intros Hw%binop_length. unfold broadcasts_to. lia. Qed.

Lemma binop_broadcasts f u v (n : nat) :
  broadcasts_to n u -> broadcasts_to n v ->
  exists w, np.binop f u v = Ok w /\ broadcasts_to n w.
Proof.
  unfold broadcasts_to, np.binop. intros Hu Hv.
  destruct (Nat.eqb_spec (length u) (length v)) as [E|E].
  - eexists. split; [reflexivity|]. rewrite length_zip_with. lia.
  - destruct u as [|a [|a' u]]; destruct v as [|b [|b' v]]; simpl in *;
      try lia; (eexists; split; [reflexivity|]); simpl;
      rewrite ?List.length_map; lia.
Qed.

(** The only exception of a binary operator is the one for shapes that do
    not broadcast. *)
Lemma binop_Raise f u v (e : exn) : np.binop f u v = Raise e -> e = ValueError.
Proof.
  unfold np.binop. destruct (length u =? length v)%nat; [discriminate|].
  destruct u as [|a [|a' u]]; destruct v as [|b [|b' v]]; intros E;
    try discriminate; by injection E.
Qed.

Lemma affine_Ok (s b x y : list T) :
  affine s b x = Ok y <->
  exists t, np.binop mul s x = Ok t /\ np.binop add t b = Ok y.
Proof.
  unfold affine, np.multiply, np.plus. split.
  - intros (t & ? & ?)%rbind_Ok. eauto.
  - intros (t & -> & ?). done.
Qed.

Lemma affine_Raise (s b x : list T) (e : exn) :
  affine s b x = Raise e -> e = ValueError.
Proof.
  unfold affine, np.multiply, np.plus.
  destruct (np.binop mul s x) as [e'|t] eqn:E; simpl.
  - intros [= <-]. by apply binop_Raise in E.
  - apply binop_Raise.
Qed.

Lemma fuse_Ok (s0 b0 s1 b1 s2 b2 : list T) :
  FuseConsecutiveBatchNormalization.fuse s0 b0 s1 b1 = Ok (s2, b2) <->
  np.binop mul s0 s1 = Ok s2 /\
  exists t, np.binop mul s1 b0 = Ok t /\ np.binop add t b1 = Ok b2.
Proof.
  unfold FuseConsecutiveBatchNormalization.fuse, np.multiply, np.plus. split.
  - intros (s2' & E2 & Hf)%rbind_Ok. apply rbind_Ok in Hf as (t & Et & Hf).
    apply rbind_Ok in Hf as (b2' & Eb & Hf). injection Hf as <- <-. eauto.
  - intros (E2 & t & Et & Eb). rewrite E2. cbn [rbind Ok]. rewrite Et.
    cbn [rbind Ok]. by rewrite Eb.
Qed.

End Arrays.

(** ** FuseConsecutiveBatchNormalization *)

(** The integers are an exact arithmetic. *)
#[export] Instance Z_ExactArith : ExactArith Z.
Proof. split; simpl; intros; lia. Qed.

Section Fusion_algebra.
Context {T : Type} `{ExactArith T}.

Lemma fused_scalar (s0 b0 s1 b1 x : T) :
  add (mul s1 (add (mul s0 x) b0)) b1 =
  add (mul (mul s0 s1) x) (add (mul s1 b0) b1).
Proof.
  by rewrite mul_add_distr', add_assoc', <- mul_assoc', (mul_comm' s1 s0).
Qed.

Lemma binop_broadcasts_to (f : T -> T -> T) (u v w : list T) (n : nat) :
  np.binop f u v = Ok w -> broadcasts_to n u -> broadcasts_to n v ->
  broadcasts_to n w.
Proof. intros Hw%binop_length. unfold broadcasts_to. lia. Qed.

(** In exact arithmetic, two affine maps one after the other are the affine
    map with the fused weights, on every input: the same array when the
    shapes broadcast, and the same exception when they do not. *)
Lemma fuse_affine (s0 b0 s1 b1 s2 b2 x : list T) :
  FuseConsecutiveBatchNormalization.fuse s0 b0 s1 b1 = Ok (s2, b2) ->
  (let* y := affine s0 b0 x in affine s1 b1 y) = affine s2 b2 x.
Proof.
  intros (E2 & t & Et & Eb)%fuse_Ok.
  assert (Hsame : forall l r,
    (let* y := affine s0 b0 x in affine s1 b1 y) = Ok l ->
    affine s2 b2 x = Ok r -> l = r).
  { intros l r (y & Hy & Hl)%rbind_Ok Hr.
    apply affine_Ok in Hy as (m0 & Em0 & Ey).
    apply affine_Ok in Hl as (m1 & Em1 & El).
    apply affine_Ok in Hr as (m2 & Em2 & Er).
    apply entry_inj. intros i.
    rewrite (binop_entry _ _ _ _ i El), (binop_entry _ _ _ _ i Em1),
      (binop_entry _ _ _ _ i Ey), (binop_entry _ _ _ _ i Em0),
      (binop_entry _ _ _ _ i Er), (binop_entry _ _ _ _ i Em2),
      (binop_entry _ _ _ _ i E2), (binop_entry _ _ _ _ i Eb),
      (binop_entry _ _ _ _ i Et).
    destruct (entry s0 i), (entry b0 i), (entry s1 i), (entry b1 i),
      (entry x i); simpl; try reflexivity.
    f_equal. apply fused_scalar. }
  assert (Hl : forall l,
    (let* y := affine s0 b0 x in affine s1 b1 y) = Ok l ->
    exists r, affine s2 b2 x = Ok r).
  { intros l (y & Hy & Hl)%rbind_Ok.
    apply affine_Ok in Hy as (m0 & Em0 & Ey).
    apply affine_Ok in Hl as (m1 & Em1 & El).
    assert (Bl : broadcasts_to (length l) l) by by left.
    destruct (binop_broadcasts_inv _ _ _ _ _ El Bl) as (Bm1 & Bb1).
    destruct (binop_broadcasts_inv _ _ _ _ _ Em1 Bm1) as (Bs1 & By).
    destruct (binop_broadcasts_inv _ _ _ _ _ Ey By) as (Bm0 & Bb0).
    destruct (binop_broadcasts_inv _ _ _ _ _ Em0 Bm0) as (Bs0 & Bx).
    pose proof (binop_broadcasts_to _ _ _ _ _ E2 Bs0 Bs1) as Bs2.
    pose proof (binop_broadcasts_to _ _ _ _ _ Et Bs1 Bb0) as Bt.
    pose proof (binop_broadcasts_to _ _ _ _ _ Eb Bt Bb1) as Bb2.
    destruct (binop_broadcasts mul s2 x _ Bs2 Bx) as (m2 & Em2 & Bm2).
    destruct (binop_broadcasts add m2 b2 _ Bm2 Bb2) as (r & Er & _).
    exists r. apply affine_Ok. eauto. }
  assert (Hr : forall r,
    affine s2 b2 x = Ok r ->
    exists l, (let* y := affine s0 b0 x in affine s1 b1 y) = Ok l).
  { intros r (m2 & Em2 & Er)%affine_Ok.
    assert (Br : broadcasts_to (length r) r) by by left.
    destruct (binop_broadcasts_inv _ _ _ _ _ Er Br) as (Bm2 & Bb2).
    destruct (binop_broadcasts_inv _ _ _ _ _ Em2 Bm2) as (Bs2 & Bx).
    destruct (binop_broadcasts_inv _ _ _ _ _ E2 Bs2) as (Bs0 & Bs1).
    destruct (binop_broadcasts_inv _ _ _ _ _ Eb Bb2) as (Bt & Bb1).
    destruct (binop_broadcasts_inv _ _ _ _ _ Et Bt) as (_ & Bb0).
    destruct (binop_broadcasts mul s0 x _ Bs0 Bx) as (m0 & Em0 & Bm0).
    destruct (binop_broadcasts add m0 b0 _ Bm0 Bb0) as (y & Ey & By).
    destruct (binop_broadcasts mul s1 y _ Bs1 By) as (m1 & Em1 & Bm1).
    destruct (binop_broadcasts add m1 b1 _ Bm1 Bb1) as (l & El & _).
    exists l. assert (Hy : affine s0 b0 x = Ok y) by (apply affine_Ok; eauto).
    rewrite Hy. cbn [rbind Ok]. apply affine_Ok. eauto. }
  destruct (let* y := affine s0 b0 x in affine s1 b1 y) as [e|l] eqn:El;
    destruct (affine s2 b2 x) as [e'|r] eqn:Er.
  - apply affine_Raise in Er as ->.
    destruct (affine s0 b0 x) as [e0|y] eqn:Ey; simpl in El.
    + injection El as <-. by apply affine_Raise in Ey as ->.
    + by apply affine_Raise in El as ->.
  - destruct (Hr r eq_refl) as (l & Hl'). discriminate.
  - destruct (Hl l eq_refl) as (r & Hr'). discriminate.
  - by rewrite (Hsame l r).
Qed.

End Fusion_algebra.

Section FuseConsecutiveBatchNormalization_properties.
Context {T : Type} `{Arith T}.
Import FuseConsecutiveBatchNormalization.

Implicit Types (model : HLSModel (list T)) (nd : node (list T)).

(** [transform] on a node whose input node and four weights are there, whose
    weights broadcast, and whose outputs and those of the input node are
    named: the input node takes the fused weights, the node leaves the
    graph, and the readers of its output [o] read the output [p] of the
    input node. *)
Lemma transform_steps_fuse model nd (bn0 : node (list T)) (i o p : string)
    (ws0 wb0 ws1 wb1 : WeightVariable (list T)) (s2 b2 : list T) :
  head (inputs nd) = Some i -> graph model !! i = Some bn0 ->
  weights bn0 !! "scale" = Some ws0 -> weights bn0 !! "bias" = Some wb0 ->
  weights nd !! "scale" = Some ws1 -> weights nd !! "bias" = Some wb1 ->
  fuse (data ws0) (data wb0) (data ws1) (data wb1) = Ok (s2, b2) ->
  head (outputs nd) = Some o -> head (outputs bn0) = Some p ->
  transform model nd =
  Ok (set_graph model
        (delete (name nd)
           (rewire o p <$> <[i := fused_node bn0 ws0 wb0 s2 b2]> (graph model))),
      true).
Proof.
  intros Ei Eg Es0 Eb0 Es1 Eb1 Ef Eo Ep.
  unfold transform, remove_node, set_input_node, get_input_node, assign_data,
    getitem.
  destruct (inputs nd) as [|i' is_]; [discriminate|]. injection Ei as ->.
  rewrite Eg. cbn [deref rbind Ok]. rewrite Es0, Eb0, Es1, Eb1. cbn [rbind Ok].
  rewrite Ef. cbn [rbind Ok weights set_weights].
  rewrite lookup_insert_ne, Eb0 by done. cbn [rbind Ok graph set_graph].
  rewrite lookup_insert_eq. cbn [deref rbind Ok outputs set_weights].
  destruct (outputs nd) as [|o' os]; [discriminate|]. injection Eo as ->.
  destruct (outputs bn0) as [|p' ps]; [discriminate|]. injection Ep as ->.
  reflexivity.
Qed.


(** C9: on a node of the graph that matches, whose input node and four
    weights are there and broadcast, and whose outputs and those of the input
    node are named, [transform] returns [True]; the graph loses the node and
    nothing else, so it has one node less; and every other node keeps its
    class, name, outputs, attributes and output variable, reads [p] wherever
    it read [o], and keeps its weights unless it is the input node. *)
Theorem Fuse_transform_shrinks model nd (bn0 : node (list T)) (i o p : string)
    (ws0 wb0 ws1 wb1 : WeightVariable (list T)) (s2 b2 : list T) :
  match_ model nd = true ->
  graph model !! name nd = Some nd ->
  head (inputs nd) = Some i -> graph model !! i = Some bn0 ->
  weights bn0 !! "scale" = Some ws0 -> weights bn0 !! "bias" = Some wb0 ->
  weights nd !! "scale" = Some ws1 -> weights nd !! "bias" = Some wb1 ->
  fuse (data ws0) (data wb0) (data ws1) (data wb1) = Ok (s2, b2) ->
  head (outputs nd) = Some o -> head (outputs bn0) = Some p ->
  exists model',
    transform model nd = Ok (model', true) /\
    (size (graph model') + 1 = size (graph model))%nat /\
    dom (graph model') = dom (graph model) ∖ {[ name nd ]} /\
    forall k c, k <> name nd -> graph model !! k = Some c ->
      exists c',
        graph model' !! k = Some c' /\
        inputs c' = (fun t => if String.eqb t o then p else t) <$> inputs c /\
        class_name c' = class_name c /\ name c' = name c /\
        outputs c' = outputs c /\ attributes c' = attributes c /\
        output_variable c' = output_variable c /\
        (k <> i -> weights c' = weights c).
Proof.
  intros _ End Ei Eg Es0 Eb0 Es1 Eb1 Ef Eo Ep.
  eexists. split; [by eapply transform_steps_fuse|].
  cbn [graph set_graph].
  assert (Hin : is_Some (graph model !! i)) by eauto.
  split; [|split].
  - rewrite map_size_delete_Some, map_size_fmap, map_size_insert_Some by
      (rewrite ?lookup_fmap, ?lookup_insert; try case_decide; simplify_eq;
       rewrite ?End; eauto).
    assert (size (graph model) <> 0%nat); [|lia].
    intros E0%map_size_empty_inv. by rewrite E0, lookup_empty in End.
  - by rewrite dom_delete_L, dom_fmap_L, dom_insert_lookup_L.
  - intros k c Hk Ec. rewrite lookup_delete_ne, lookup_fmap by done.
    destruct (decide (i = k)) as [->|Hik].
    + rewrite lookup_insert_eq. eexists. split; [reflexivity|].
      rewrite Eg in Ec. injection Ec as <-. by repeat split.
    + rewrite lookup_insert_ne, Ec by done. eexists. split; [reflexivity|].
      by repeat split.
Qed.

End FuseConsecutiveBatchNormalization_properties.



Lemma Fuse_transform_shrinks_witness :
  exists model',
    FuseConsecutiveBatchNormalization.transform Example.chain Example.bn1
    = Ok (model', true) /\
    (size (graph model') + 1 = size (graph Example.chain))%nat /\
    dom (graph model') = dom (graph Example.chain) ∖ {[ "bn1" ]} /\
    forall k c, k <> "bn1" -> graph Example.chain !! k = Some c ->
      exists c',
        graph model' !! k = Some c' /\
        inputs c' = (fun t => if String.eqb t "bn1" then "fc1_alpha" else t)
                    <$> inputs c /\
        class_name c' = class_name c /\ name c' = name c /\
        outputs c' = outputs c /\ attributes c' = attributes c /\
        output_variable c' = output_variable c /\
        (k <> "fc1_alpha" -> weights c' = weights c).
Proof.
  apply (Fuse_transform_shrinks Example.chain Example.bn1
           (Example.batchnorm "ApplyAlpha" "fc1_alpha" "fc1" [2] [1])
           "fc1_alpha" "bn1" "fc1_alpha"
           (Example.weight_of [2]) (Example.weight_of [1])
           (Example.weight_of [3]) (Example.weight_of [0]) [6] [3]);
    vm_compute; reflexivity.
Defined.

(** * Further properties of the passes *)

(** ** OutputRoundingSaturationMode *)

Section OutputRoundingSaturationMode_more.
Context {T : Type}.
Import OutputRoundingSaturationMode.

Implicit Types (self : pass) (model : HLSModel T) (nd : node T).

(** [transform], where it returns, returns [False] and changes of the node
    the numeric type of the output and the attribute [accum_t] only; and
    [accum_t], when it was set, is the new numeric type. *)
Theorem ORSM_transform_frame self model nd nd' (b : bool) :
  transform self model nd = Ok (nd', b) ->
  b = false /\
  class_name nd' = class_name nd /\ name nd' = name nd /\
  inputs nd' = inputs nd /\ outputs nd' = outputs nd /\
  weights nd' = weights nd /\
  shape (output_variable nd') = shape (output_variable nd) /\
  dim_names (output_variable nd') = dim_names (output_variable nd) /\
  (forall key, key <> "accum_t" -> get_attr nd' key = get_attr nd key) /\
  (if is_not_None (get_attr nd "accum_t")
   then get_attr nd' "accum_t" = attr_of_precision (get_output_precision nd')
   else attributes nd' = attributes nd).
Proof.
  unfold transform.
  destruct (transform_locals self (get_output_precision nd)) as [e|[np [nt|]]];
    [discriminate| |discriminate]. cbn [rbind Ok].
  change (get_attr (set_output_precision nd nt) "accum_t")
    with (get_attr nd "accum_t").
  destruct (is_not_None (get_attr nd "accum_t")); intros [= <- <-];
    repeat (split; [reflexivity|]).
  - split.
    + intros key Hkey. unfold get_attr, set_attr. cbn [attributes set_attributes].
      by rewrite lookup_insert_ne.
    + unfold get_attr, set_attr. cbn [attributes set_attributes].
      by rewrite lookup_insert_eq.
  - split; reflexivity.
Qed.

(** On a fixed-point type [transform] returns, and the new type has the old
    width, integer bits and sign and the three mode fields of the pass: a
    mode the node carried is replaced, also by a field that is unset. *)
Theorem ORSM_transform_fixed_fields self model nd (w i : Z) (s : bool)
    (rm sm : option string) (sb : option Z) :
  get_output_precision nd = Typed (FixedPrecisionType w i s rm sm sb) ->
  exists nd',
    transform self model nd = Ok (nd', false) /\
    get_output_precision nd' =
    Typed (FixedPrecisionType w i s (rounding_mode self) (saturation_mode self)
             (saturation_bits self)).
Proof.
  intros E. rewrite (transform_fixed self model nd w i s rm sm sb E).
  eexists. split; [reflexivity|].
  by destruct (is_not_None (get_attr nd "accum_t")).
Qed.

Lemma replace_same (c : ascii) (s : string) : Str.replace c (String c "") s = s.
Proof.
  induction s as [|x s IH]; simpl; [done|].
  destruct (Ascii.eqb_spec x c) as [->|_]; simpl; by rewrite IH.
Qed.

Lemma replace_app (c : ascii) (new x y : string) :
  Str.replace c new (x +:+ y) = Str.replace c new x +:+ Str.replace c new y.
Proof.
  induction x as [|a x IH]; simpl; [done|].
  destruct (Ascii.eqb a c); simpl; by rewrite IH, ?append_assoc.
Qed.

(** The suffix [precision_string_modify] builds. *)
Lemma precision_string_modify_bracket self :
  precision_string_modify self ">" = mode_text self +:+ ">".
Proof.
  unfold precision_string_modify, mode_text, configured_fields.
  destruct (rounding_mode self), (saturation_mode self), (saturation_bits self);
    simpl; rewrite ?append_assoc, ?append_nil_r; simpl;
    rewrite ?append_assoc, ?append_nil_r; reflexivity.
Qed.

(** With no field configured, [precision_string_modify] gives every string
    back as it is. *)
Theorem ORSM_string_modify_unset (l : list string) (pstr : string) :
  precision_string_modify
    {| layers := l; rounding_mode := None; saturation_mode := None;
       saturation_bits := None |} pstr
  = pstr.
Proof. unfold precision_string_modify. simpl. apply replace_same. Qed.

Lemma precision_string_modify_app self (body : string) :
  Str.contains ">" body = false ->
  precision_string_modify self (body +:+ ">") = body +:+ mode_text self +:+ ">".
Proof.
  intros Hb. rewrite <- precision_string_modify_bracket.
  unfold precision_string_modify. rewrite replace_app.
  by rewrite (replace_absent _ _ _ Hb).
Qed.

(** On a type string that ends in its only closing bracket,
    [precision_string_modify] puts the configured fields, each after a comma,
    in front of that bracket. *)
Theorem ORSM_string_modify_suffix self (body : string) :
  Str.contains ">" body = false ->
  precision_string_modify self (body +:+ ">") = body +:+ mode_text self +:+ ">".
Proof. apply precision_string_modify_app. Qed.

(** [match] looks for the configured mode anywhere in the printed type: a
    pass that only sets a rounding mode does not match a node whose type
    shows a mode of which the configured one is a part. *)
Theorem ORSM_match_substring self nd (rm rm' : string) :
  rounding_mode self = Some rm -> saturation_mode self = None ->
  Str.contains rm rm' = true ->
  Str.contains rm' (str_precision (get_output_precision nd)) = true ->
  match_ self nd = false.
Proof.
  intros Hr Hs Hsub Hin. apply match_covered.
  - intros m Hm. rewrite Hr in Hm. injection Hm as <-.
    by eapply contains_trans.
  - intros m Hm. rewrite Hs in Hm. discriminate.
Qed.

End OutputRoundingSaturationMode_more.

Lemma ORSM_transform_frame_witness :
  exists nd',
    OutputRoundingSaturationMode.transform Example.round_dense
      (Example.model_of (Example.dense Example.fixed_16_6))
      (Example.dense Example.fixed_16_6) = Ok (nd', false) /\
    weights nd' = ∅ /\
    get_attr nd' "name" = AStr "fc1" /\
    get_attr nd' "accum_t" =
    APrecisionType (FixedPrecisionType 16 6 true (Some "AP_RND_CONV") None None).
Proof.
  eexists. split; [reflexivity|].
  destruct (ORSM_transform_frame Example.round_dense
              (Example.model_of (Example.dense Example.fixed_16_6))
              (Example.dense Example.fixed_16_6) _ false eq_refl)
    as (_ & _ & _ & _ & _ & Hw & _ & _ & Hk & Ha).
  split; [exact Hw|]. split; [by apply Hk | exact Ha].
Defined.

Lemma ORSM_transform_fixed_fields_witness :
  exists nd',
    OutputRoundingSaturationMode.transform Example_more.saturate
      (Example.model_of (Example.dense Example_more.fixed_rounding))
      (Example.dense Example_more.fixed_rounding) = Ok (nd', false) /\
    get_output_precision nd' =
    Typed (FixedPrecisionType 16 6 true None (Some "AP_SAT") (Some 0)).
Proof.
  exact (ORSM_transform_fixed_fields Example_more.saturate
           (Example.model_of (Example.dense Example_more.fixed_rounding))
           (Example.dense Example_more.fixed_rounding)
           16 6 true (Some "AP_RND_CONV") None None eq_refl).
Defined.

Lemma ORSM_string_modify_suffix_witness :
  OutputRoundingSaturationMode.precision_string_modify Example_more.saturate
    "ap_fixed<16,6>" = "ap_fixed<16,6,AP_SAT,0>".
Proof.
  exact (ORSM_string_modify_suffix Example_more.saturate "ap_fixed<16,6"
           eq_refl).
Defined.

Lemma ORSM_match_substring_witness :
  OutputRoundingSaturationMode.match_ Example_more.round_plain
    (Example.dense (Untyped "ap_fixed<16,6,AP_RND_CONV>")) = false.
Proof.
  exact (ORSM_match_substring Example_more.round_plain
           (Example.dense (Untyped "ap_fixed<16,6,AP_RND_CONV>"))
           "AP_RND" "AP_RND_CONV" eq_refl eq_refl eq_refl eq_refl).
Defined.

(** *** The two ways of writing the modes agree *)

Lemma contains_char_cons (c a : ascii) (t : string) :
  Str.contains (String c "") (String a t) =
  Ascii.eqb a c || Str.contains (String c "") t.
Proof.
  cbn [Str.contains String.prefix].
  destruct (ascii_dec c a) as [->|Hne].
  - rewrite Ascii.eqb_refl. by destruct t.
  - destruct (Ascii.eqb_spec a c) as [->|_]; [done|]. reflexivity.
Qed.

Lemma contains_char_app (c : ascii) (x y : string) :
  Str.contains (String c "") (x +:+ y) =
  Str.contains (String c "") x || Str.contains (String c "") y.
Proof.
  induction x as [|a x IH].
  - simpl. by destruct y.
  - change (String a x +:+ y) with (String a (x +:+ y)).
    by rewrite !contains_char_cons, IH, orb_assoc.
Qed.

(** The decimal digits of a number hold no bracket. *)
Lemma string_of_uint_no_bracket (d : Decimal.uint) :
  Str.contains ">" (NilEmpty.string_of_uint d) = false.
Proof.
  induction d; cbn [NilEmpty.string_of_uint]; [reflexivity|..];
    by rewrite contains_char_cons, IHd.
Qed.

Lemma of_Z_no_bracket (z : Z) : Str.contains ">" (Str.of_Z z) = false.
Proof.
  unfold Str.of_Z, NilZero.string_of_int, NilZero.string_of_uint.
  destruct (Z.to_int z) as [d|d]; destruct d;
    rewrite ?contains_char_cons; try reflexivity;
    try apply (string_of_uint_no_bracket (Decimal.D0 d));
    try apply (string_of_uint_no_bracket (Decimal.D1 d));
    try apply (string_of_uint_no_bracket (Decimal.D2 d));
    try apply (string_of_uint_no_bracket (Decimal.D3 d));
    try apply (string_of_uint_no_bracket (Decimal.D4 d));
    try apply (string_of_uint_no_bracket (Decimal.D5 d));
    try apply (string_of_uint_no_bracket (Decimal.D6 d));
    try apply (string_of_uint_no_bracket (Decimal.D7 d));
    try apply (string_of_uint_no_bracket (Decimal.D8 d));
    try apply (string_of_uint_no_bracket (Decimal.D9 d)).
Qed.

Lemma concat_nil_cons (a : string) (l : list string) :
  String.concat "" (a :: l) = a +:+ String.concat "" l.
Proof. destruct l; simpl; [by rewrite append_nil_r | reflexivity]. Qed.

(** A joined list is its head followed by the separator and each other
    element. *)
Lemma join_cons (sep x : string) (l : list string) :
  Str.join sep (x :: l) = x +:+ String.concat "" (map (fun m => sep +:+ m) l).
Proof.
  unfold Str.join. revert x. induction l as [|y l IH]; intros x.
  - simpl. by rewrite append_nil_r.
  - change (String.concat sep (x :: y :: l))
      with (x +:+ sep +:+ String.concat sep (y :: l)).
    rewrite IH. cbn [map]. by rewrite concat_nil_cons, append_assoc.
Qed.

(** For a fixed-point type that carries no mode, the descriptor [transform]
    builds prints as the string [precision_string_modify] makes of the
    printed old type: the structured and the textual update agree. *)
Theorem ORSM_string_modify_agrees (self : OutputRoundingSaturationMode.pass)
    (w i : Z) (s : bool) :
  str_precision
    (Typed (FixedPrecisionType w i s
              (OutputRoundingSaturationMode.rounding_mode self)
              (OutputRoundingSaturationMode.saturation_mode self)
              (OutputRoundingSaturationMode.saturation_bits self)))
  = OutputRoundingSaturationMode.precision_string_modify self
      (str_precision (Typed (FixedPrecisionType w i s None None None))).
Proof.
  cbn [str_precision str_PrecisionType omap list_omap id fmap option_fmap
       option_map].
  change (omap id [?a; ?b; ?c]) with (configured_fields self).
  rewrite (join_cons "," (Str.of_Z w) [Str.of_Z i]).
  change (Str.of_Z w :: Str.of_Z i :: ?l) with ([Str.of_Z w] ++ Str.of_Z i :: l).
  set (u := if s then "" else "u").
  transitivity
    (("ap_" +:+ u +:+ "fixed<" +:+ Str.of_Z w +:+ "," +:+ Str.of_Z i)
       +:+ mode_text self +:+ ">").
  - cbn [app]. rewrite (join_cons "," (Str.of_Z w)). cbn [map].
    change (String.concat "" (?x :: map ?f ?l))
      with (Str.join "" (x :: map f l)).
    rewrite (join_cons "" ("," +:+ Str.of_Z i)).
    rewrite map_map. unfold mode_text.
    rewrite (map_ext _ (fun m => "," +:+ m)) by done.
    by rewrite !append_assoc.
  - rewrite <- precision_string_modify_app.
    + cbn [map String.concat]. by rewrite !append_assoc, ?append_nil_r.
    + rewrite !contains_char_app, !of_Z_no_bracket. by destruct s.
Qed.

(** ** QKerasFactorizeAlpha *)

Section QKerasFactorizeAlpha_more.
Context {T : Type} `{Arith T}.
Import QKerasFactorizeAlpha.

Implicit Types (model : HLSModel (ndarray.t T)) (nd : node (ndarray.t T))
  (q hq : Quantizer (ndarray.t T)) (w : WeightVariable (ndarray.t T))
  (qf : qkeras_quantizer (ndarray.t T)).

Lemma weight_oid_eq nd w hq :
  weights nd !! "weight" = Some w -> quantizer w = Some hq ->
  weight_oid nd = Some (oid hq).
Proof. intros Ew Ehq. unfold weight_oid. rewrite Ew. simpl. by rewrite Ehq. Qed.



(** The exception of [transform] on a node that lacks what line by line it
    reads first: the entry ['weight'], the quantizer of that entry, the
    QKeras function of that quantizer, the data before quantization. *)
Theorem QFA_transform_missing model nd :
  (weights nd !! "weight" = None -> transform model nd = Raise KeyError) /\
  (forall w, weights nd !! "weight" = Some w ->
     (quantizer w = None -> transform model nd = Raise AttributeError) /\
     (forall hq, quantizer w = Some hq ->
        (quantizer_fn hq = None -> transform model nd = Raise AttributeError) /\
        (forall qf, quantizer_fn hq = Some qf -> data_unquantized w = None ->
           transform model nd = Raise AttributeError))).
Proof.
  unfold transform, factorize, getitem. split.
  - by intros ->.
  - intros w ->. cbn [rbind Ok]. split; [by intros ->|].
    intros hq ->. cbn [rbind deref Ok]. split; [by intros ->|].
    by intros qf -> ->.
Qed.

(** On a node whose weight quantizer records a plain number as its scale, as
    a QKeras quantizer with a number for [alpha] does, [transform] raises
    [AttributeError]: a number has no method [numpy]. *)
Theorem QFA_transform_plain_scale model nd w hq qf (wu : ndarray.t T)
    (v : pyval) :
  weights nd !! "weight" = Some w -> quantizer w = Some hq ->
  quantizer_fn hq = Some qf -> data_unquantized w = Some wu ->
  (call qf wu).2 = Plain v ->
  transform model nd = Raise AttributeError.
Proof.
  intros Ew Ehq Eqf Ewu Es. unfold transform.
  by rewrite (factorize_unfold nd w hq qf wu Ew Ehq Eqf Ewu), Es.
Qed.

(** The only exception of broadcasting is the one for shapes that do not
    agree. *)
Lemma broadcast_dims_Raise (r1 r2 : list nat) (e : exn) :
  ndarray.broadcast_dims r1 r2 = Raise e -> e = ValueError.
Proof.
  revert r2. induction r1 as [|d1 r1 IH]; intros [|d2 r2]; simpl;
    try discriminate.
  destruct (d1 =? d2)%nat; [|destruct (d1 =? 1)%nat; [|destruct (d2 =? 1)%nat]];
    simpl; try (intros [= <-]; reflexivity);
    (destruct (ndarray.broadcast_dims r1 r2) as [e'|r] eqn:E; simpl;
     [intros [= <-]; by apply (IH r2) | discriminate]).
Qed.

Lemma multiply_Raise (u v : ndarray.t T) (e : exn) :
  ndarray.multiply u v = Raise e -> e = ValueError.
Proof.
  unfold ndarray.multiply, ndarray.binop, ndarray.broadcast_shapes.
  destruct (ndarray.broadcast_dims (rev (ndarray.shape u)) (rev (ndarray.shape v)))
    as [e'|r] eqn:E; simpl; [|discriminate].
  intros [= <-]. by apply broadcast_dims_Raise in E.
Qed.

(** On a node whose recorded scale does not broadcast against the quantized
    weights, [transform] raises [ValueError]. *)
Theorem QFA_transform_no_broadcast model nd w hq qf (wu scale : ndarray.t T)
    (e : exn) :
  weights nd !! "weight" = Some w -> quantizer w = Some hq ->
  quantizer_fn hq = Some qf -> data_unquantized w = Some wu ->
  numpy (call qf wu).2 = Ok scale ->
  ndarray.broadcast_shapes (ndarray.shape scale) (ndarray.shape (call qf wu).1)
  = Raise e ->
  transform model nd = Raise ValueError.
Proof.
  intros Ew Ehq Eqf Ewu Es Eb. unfold transform.
  rewrite (factorize_unfold nd w hq qf wu Ew Ehq Eqf Ewu), Es. cbn [rbind Ok].
  destruct (ndarray.multiply (ndarray.reciprocal scale) (call qf wu).1)
    as [e'|new_weights] eqn:Em.
  - by apply multiply_Raise in Em as ->.
  - unfold ndarray.multiply, ndarray.binop in Em.
    cbn [ndarray.shape ndarray.reciprocal] in Em. rewrite Eb in Em.
    discriminate.
Qed.

(** On a node that [factorize] accepts but whose attribute ['name'] is not a
    string (it may be missing), [transform] raises [TypeError]: the name of
    the new layer is taken from [node.name], its attribute ['name'] from the
    attribute of the node. *)
Theorem QFA_transform_unnamed model nd w hq qf
    (wu scale new_weights : ndarray.t T) :
  weights nd !! "weight" = Some w -> quantizer w = Some hq ->
  quantizer_fn hq = Some qf -> data_unquantized w = Some wu ->
  numpy (call qf wu).2 = Ok scale ->
  ndarray.multiply (ndarray.reciprocal scale) (call qf wu).1 = Ok new_weights ->
  takes_alpha (get_attr nd "weight_quantizer") = true ->
  takes_alpha (get_attr nd "bias_quantizer") = true ->
  (forall s, get_attr nd "name" <> AStr s) ->
  transform model nd = Raise TypeError.
Proof.
  intros Ew Ehq Eqf Ewu Es Em Tw Tb Hname.
  unfold transform.
  rewrite (factorize_total nd w hq qf wu scale new_weights
             Ew Ehq Eqf Ewu Es Em Tw Tb).
  cbn [rbind Ok]. unfold alpha_attrs. rewrite get_attr_factorized.
  destruct (get_attr nd "name") as [| | s | | |]; try reflexivity.
  by destruct (Hname s).
Qed.

(** The attributes of the layer [transform] inserts: its ['name'] is the
    node's attribute ['name'] followed by ['_alpha'], its ['class_name'] is
    ['Alpha'], its ['inputs'] are the node's outputs, its ['n_in'] is the
    node's ['n_out'], its ['n_filt'] is the node's or [-1], its
    ['reuse_factor'] is the node's, and both types are ['ap_fixed<16,6>'].
    The attributes of the node are read after the quantizers are reset;
    those that hold no quantizer object are as they were before.  The layer
    has no quantizer attribute, and the pass does not match it. *)
Theorem QFA_transform_attributes model nd model' (b : bool) (s : string) :
  transform model nd = Ok (model', b) ->
  get_attr nd "name" = AStr s ->
  exists al nd',
    graph model' !! (name nd +:+ "_alpha") = Some al /\
    graph model' !! name nd = Some nd' /\
    (forall key, (forall q, get_attr nd key <> AQuantizer q) ->
       get_attr nd' key = get_attr nd key) /\
    get_attr al "name" = AStr (s +:+ "_alpha") /\
    get_attr al "class_name" = AStr "Alpha" /\
    get_attr al "inputs" = AStrs (outputs nd) /\
    get_attr al "n_in" = get_attr nd' "n_out" /\
    get_attr al "n_filt" =
      (if is_not_None (get_attr nd' "n_filt") then get_attr nd' "n_filt"
       else AInt (-1)) /\
    get_attr al "reuse_factor" = get_attr nd' "reuse_factor" /\
    get_attr al "bias_t" = AStr "ap_fixed<16,6>" /\
    get_attr al "scale_t" = AStr "ap_fixed<16,6>" /\
    get_attr al "weight_quantizer" = ANone /\
    get_attr al "bias_quantizer" = ANone /\
    match_ al = false.
Proof.
  intros Ht Ename.
  apply transform_node in Ht
    as (w & hq & qf & wu & scale & new_weights & attrs & inp & o
        & _ & _ & _ & _ & _ & _ & Ea & _ & Hnd & Hal & _).
  eexists _, _. split; [exact Hal|]. split; [exact Hnd|].
  split.
  { intros key Hq. rewrite get_attr_rewire, get_attr_factorized.
    by apply map_attr_not_quantizer. }
  unfold alpha_attrs in Ea. rewrite (get_attr_factorized _ _ _ _ _ "name") in Ea.
  rewrite Ename in Ea. cbn [map_attr plus_alpha rbind Ok] in Ea.
  injection Ea as <-.
  rewrite !get_attr_rewire.
  unfold alpha_layer, ApplyAlpha.add_weights, add_weights_variable.
  unfold get_attr at 1 3 5 7 10 12 14 16 18.
  cbn [attributes set_weights outputs factorized_node].
  repeat (split; [by simplify_map_eq|]).
  rewrite match_unfold. unfold get_attr. cbn [attributes class_name set_weights].
  by simplify_map_eq.
Qed.

End QKerasFactorizeAlpha_more.



Lemma QFA_transform_missing_witness :
  QKerasFactorizeAlpha.transform (Example.fmodel_of Example.qbias_only)
    Example.qbias_only = Raise AttributeError.
Proof.
  destruct (QFA_transform_missing (Example.fmodel_of Example.qbias_only)
              Example.qbias_only) as (_ & Hw).
  destruct (Hw _ ltac:(vm_compute; reflexivity)) as (Hq & _).
  exact (Hq eq_refl).
Defined.

Lemma QFA_transform_plain_scale_witness :
  QKerasFactorizeAlpha.match_ Example_factorize.qdense_numeric = true /\
  QKerasFactorizeAlpha.transform
    (Example.fmodel_of Example_factorize.qdense_numeric)
    Example_factorize.qdense_numeric = Raise AttributeError.
Proof.
  split; [vm_compute; reflexivity|].
  refine (QFA_transform_plain_scale
            (Example.fmodel_of Example_factorize.qdense_numeric)
            Example_factorize.qdense_numeric _ Example_factorize.alpha_2 _
            Example.kernel (PyNum 2) _ _ _ _ _);
    vm_compute; reflexivity.
Defined.

Lemma QFA_transform_no_broadcast_witness :
  QKerasFactorizeAlpha.transform
    (Example.fmodel_of Example_factorize.qdense_transposed)
    Example_factorize.qdense_transposed = Raise ValueError.
Proof.
  refine (QFA_transform_no_broadcast
            (Example.fmodel_of Example_factorize.qdense_transposed)
            Example_factorize.qdense_transposed _ Example.auto_po2
            Example.binary_po2 Example_factorize.kernel_3_2 Example.scale
            ValueError _ _ _ _ _ _);
    vm_compute; reflexivity.
Defined.

Lemma QFA_transform_unnamed_witness :
  QKerasFactorizeAlpha.transform
    (Example.fmodel_of Example_factorize.qdense_unnamed)
    Example_factorize.qdense_unnamed = Raise TypeError.
Proof.
  refine (QFA_transform_unnamed
            (Example.fmodel_of Example_factorize.qdense_unnamed)
            Example_factorize.qdense_unnamed Example.qweight Example.auto_po2
            Example.binary_po2 Example.kernel Example.scale _
            _ _ _ _ _ _ _ _ _);
    try (vm_compute; reflexivity).
  intros s Hs. vm_compute in Hs. discriminate.
Defined.

Lemma QFA_transform_attributes_witness :
  exists model' al,
    QKerasFactorizeAlpha.transform (Example.fmodel_of Example.qdense)
      Example.qdense = Ok (model', true) /\
    graph model' !! "fc1_alpha" = Some al /\
    get_attr al "name" = AStr "fc1_alpha" /\
    get_attr al "class_name" = AStr "Alpha" /\
    get_attr al "inputs" = AStrs ["fc1"] /\
    get_attr al "n_in" = AInt 3 /\
    get_attr al "n_filt" = AInt (-1) /\
    get_attr al "reuse_factor" = ANone /\
    get_attr al "bias_t" = AStr "ap_fixed<16,6>" /\
    get_attr al "scale_t" = AStr "ap_fixed<16,6>" /\
    get_attr al "weight_quantizer" = ANone /\
    get_attr al "bias_quantizer" = ANone /\
    QKerasFactorizeAlpha.match_ al = false.
Proof.
  assert (Ht : { model' | QKerasFactorizeAlpha.transform
                            (Example.fmodel_of Example.qdense) Example.qdense
                          = Ok (model', true) }).
  { eexists. vm_compute. reflexivity. }
  destruct Ht as (model' & Ht).
  destruct (QFA_transform_attributes (Example.fmodel_of Example.qdense)
              Example.qdense model' true "fc1" Ht
              ltac:(vm_compute; reflexivity))
    as (al & nd' & Hal & Hnd & Hplain & Hname & Hcls & Hin & Hnin & Hfilt & Hre
        & Hbt & Hst & Hwq & Hbq & Hm).
  assert (Hp : forall key a, get_attr Example.qdense key = a ->
                 (forall q, a <> AQuantizer q) -> get_attr nd' key = a).
  { intros key a <- Hq. by apply Hplain. }
  rewrite (Hp "n_out" (AInt 3)) in Hnin
    by first [ vm_compute; reflexivity | discriminate ].
  rewrite (Hp "n_filt" ANone) in Hfilt
    by first [ vm_compute; reflexivity | discriminate ].
  rewrite (Hp "reuse_factor" ANone) in Hre
    by first [ vm_compute; reflexivity | discriminate ].
  exists model', al. by repeat split.
Defined.

(** ** The passes one after the other *)

Section Passes_composed.
Context {T : Type} `{Arith T}.

Implicit Types (model : HLSModel (ndarray.t T)) (nd bn : node (ndarray.t T)).

Lemma isinstance_rewire {A} (nd : node A) (o p : string) :
  isinstance_BatchNormalization (rewire o p nd) = isinstance_BatchNormalization nd.
Proof. reflexivity. Qed.

Lemma head_rewire {A} (nd : node A) (o p : string) :
  head (inputs nd) = Some o -> head (inputs (rewire o p nd)) = Some p.
Proof.
  cbn [inputs rewire set_inputs]. destruct (inputs nd) as [|i is_]; [done|].
  intros [= ->]. cbn. by rewrite String.eqb_refl.
Qed.

(** After [QKerasFactorizeAlpha.transform] on a node, a batch normalization
    that read the node's output reads the inserted [ApplyAlpha] layer, and
    [FuseConsecutiveBatchNormalization] matches it: the two affine layers the
    first pass leaves in a row are found by the second. *)
Theorem QFA_then_Fuse_match model nd model' (b : bool) (k o : string) bn :
  QKerasFactorizeAlpha.transform model nd = Ok (model', b) ->
  head (outputs nd) = Some o ->
  graph model !! k = Some bn ->
  k <> name nd -> k <> name nd +:+ "_alpha" ->
  head (inputs bn) = Some o ->
  isinstance_BatchNormalization bn = true ->
  exists bn' al,
    graph model' !! k = Some bn' /\
    get_input_node model' bn' = Some al /\
    class_name al = "ApplyAlpha" /\ name al = name nd +:+ "_alpha" /\
    FuseConsecutiveBatchNormalization.match_ model' bn' = true.
Proof.
  intros Ht Eo Ek Hk Hka Ei Hbn.
  apply transform_node in Ht
    as (w & hq & qf & wu & scale & new_weights & attrs & inp & o'
        & _ & _ & _ & _ & _ & _ & _ & Eo' & _ & Hal & Hother).
  rewrite Eo in Eo'. injection Eo' as <-.
  exists (rewire o (name nd +:+ "_alpha") bn),
    (alpha_layer model (factorized_node nd w hq qf new_weights) attrs inp scale).
  assert (Eg : get_input_node model' (rewire o (name nd +:+ "_alpha") bn)
               = Some (alpha_layer model (factorized_node nd w hq qf new_weights)
                         attrs inp scale)).
  { unfold get_input_node.
    pose proof (head_rewire bn o (name nd +:+ "_alpha") Ei) as Eh.
    destruct (inputs (rewire o (name nd +:+ "_alpha") bn)) as [|i is_];
      [discriminate|]. injection Eh as ->. exact Hal. }
  split; [by rewrite Hother, Ek|].
  split; [exact Eg|]. split; [reflexivity|]. split; [reflexivity|].
  unfold FuseConsecutiveBatchNormalization.match_.
  rewrite Eg, isinstance_rewire, Hbn. reflexivity.
Qed.

End Passes_composed.

Lemma QFA_then_Fuse_match_witness :
  exists model' bn' al,
    QKerasFactorizeAlpha.transform Example_factorize.qmodel Example.qdense
    = Ok (model', true) /\
    graph model' !! "bn1" = Some bn' /\
    get_input_node model' bn' = Some al /\
    class_name al = "ApplyAlpha" /\ name al = "fc1_alpha" /\
    FuseConsecutiveBatchNormalization.match_ model' bn' = true.
Proof.
  assert (Ht : { model' | QKerasFactorizeAlpha.transform
                            Example_factorize.qmodel Example.qdense
                          = Ok (model', true) }).
  { eexists. vm_compute. reflexivity. }
  destruct Ht as (model' & Ht).
  destruct (QFA_then_Fuse_match Example_factorize.qmodel Example.qdense
              model' true "bn1" "fc1" Example_factorize.bn_after_fc1 Ht
              eq_refl ltac:(vm_compute; reflexivity)
              ltac:(discriminate) ltac:(discriminate) eq_refl eq_refl)
    as (bn' & al & Hrest).
  exists model', bn', al. split; [exact Ht | exact Hrest].
Defined.

(** ** FuseConsecutiveBatchNormalization *)

Section Fusion_order.
Context {T : Type} `{ExactArith T}.
Import FuseConsecutiveBatchNormalization.

Lemma fuse_Raise (s0 b0 s1 b1 : list T) (e : exn) :
  fuse s0 b0 s1 b1 = Raise e -> e = ValueError.
Proof.
  unfold fuse, np.multiply, np.plus.
  destruct (np.binop mul s0 s1) as [e0|s2] eqn:E2; cbn [rbind Ok].
  { intros [= <-]. by apply binop_Raise in E2. }
  destruct (np.binop mul s1 b0) as [e1|t] eqn:Et; cbn [rbind Ok].
  { intros [= <-]. by apply binop_Raise in Et. }
  destruct (np.binop add t b1) as [e2|b2] eqn:Eb; cbn [rbind Ok]; [|discriminate].
  intros [= <-]. by apply binop_Raise in Eb.
Qed.

(** In exact arithmetic the fusion of three affine layers does not depend on
    the pair that is fused first: fusing the first two and then the third
    gives the weights, or the exception, of fusing the first with the fusion
    of the last two. *)
Theorem fuse_assoc (s0 b0 s1 b1 s2 b2 : list T) :
  (let* p := fuse s0 b0 s1 b1 in fuse p.1 p.2 s2 b2) =
  (let* q := fuse s1 b1 s2 b2 in fuse s0 b0 q.1 q.2).
Proof.
  assert (Hsame : forall l r,
    (let* p := fuse s0 b0 s1 b1 in fuse p.1 p.2 s2 b2) = Ok l ->
    (let* q := fuse s1 b1 s2 b2 in fuse s0 b0 q.1 q.2) = Ok r -> l = r).
  { intros [sl bl] [sr br] ([s01 b01] & E01 & El)%rbind_Ok
      ([s12 b12] & E12 & Er)%rbind_Ok.
    cbn [fst snd] in El, Er.
    apply fuse_Ok in E01 as (A1 & t1 & A2 & A3).
    apply fuse_Ok in El as (A4 & t2 & A5 & A6).
    apply fuse_Ok in E12 as (B1 & u1 & B2 & B3).
    apply fuse_Ok in Er as (B4 & u2 & B5 & B6).
    f_equal; apply entry_inj; intros i.
    - rewrite (binop_entry _ _ _ _ i A4), (binop_entry _ _ _ _ i A1),
        (binop_entry _ _ _ _ i B4), (binop_entry _ _ _ _ i B1).
      destruct (entry s0 i), (entry s1 i), (entry s2 i); simpl; try reflexivity.
      by rewrite mul_assoc'.
    - rewrite (binop_entry _ _ _ _ i A6), (binop_entry _ _ _ _ i A5),
        (binop_entry _ _ _ _ i A3), (binop_entry _ _ _ _ i A2),
        (binop_entry _ _ _ _ i B6), (binop_entry _ _ _ _ i B5),
        (binop_entry _ _ _ _ i B3), (binop_entry _ _ _ _ i B2),
        (binop_entry _ _ _ _ i B1).
      destruct (entry s1 i), (entry s2 i), (entry b0 i), (entry b1 i),
        (entry b2 i); simpl; try reflexivity.
      f_equal. apply fused_scalar. }
  assert (Hl : forall l,
    (let* p := fuse s0 b0 s1 b1 in fuse p.1 p.2 s2 b2) = Ok l ->
    exists r, (let* q := fuse s1 b1 s2 b2 in fuse s0 b0 q.1 q.2) = Ok r).
  { intros [sl bl] ([s01 b01] & E01 & El)%rbind_Ok. cbn [fst snd] in El.
    apply fuse_Ok in E01 as (A1 & t1 & A2 & A3).
    apply fuse_Ok in El as (A4 & t2 & A5 & A6).
    assert (Bsl : broadcasts_to (length sl) sl) by by left.
    assert (Bbl : broadcasts_to (length bl) bl) by by left.
    destruct (binop_broadcasts_inv _ _ _ _ _ A4 Bsl) as (Bs01 & Bs2).
    destruct (binop_broadcasts_inv _ _ _ _ _ A1 Bs01) as (Bs0 & Bs1).
    destruct (binop_broadcasts_inv _ _ _ _ _ A6 Bbl) as (Bt2 & Bb2).
    destruct (binop_broadcasts_inv _ _ _ _ _ A5 Bt2) as (Bs2' & Bb01).
    destruct (binop_broadcasts_inv _ _ _ _ _ A3 Bb01) as (Bt1 & Bb1).
    destruct (binop_broadcasts_inv _ _ _ _ _ A2 Bt1) as (Bs1' & Bb0).
    destruct (binop_broadcasts mul s1 s2 _ Bs1 Bs2) as (s12 & B1 & Bs12).
    pose proof (binop_broadcasts_to _ _ _ _ _ B1 Bs1' Bs2') as Bs12'.
    destruct (binop_broadcasts mul s2 b1 _ Bs2' Bb1) as (u1 & B2 & Bu1).
    destruct (binop_broadcasts add u1 b2 _ Bu1 Bb2) as (b12 & B3 & Bb12).
    destruct (binop_broadcasts mul s0 s12 _ Bs0 Bs12) as (sr & B4 & _).
    destruct (binop_broadcasts mul s12 b0 _ Bs12' Bb0) as (u2 & B5 & Bu2).
    destruct (binop_broadcasts add u2 b12 _ Bu2 Bb12) as (br & B6 & _).
    exists (sr, br).
    assert (E12 : fuse s1 b1 s2 b2 = Ok (s12, b12)) by (apply fuse_Ok; eauto).
    rewrite E12. cbn [rbind Ok fst snd]. apply fuse_Ok. eauto. }
  assert (Hr : forall r,
    (let* q := fuse s1 b1 s2 b2 in fuse s0 b0 q.1 q.2) = Ok r ->
    exists l, (let* p := fuse s0 b0 s1 b1 in fuse p.1 p.2 s2 b2) = Ok l).
  { intros [sr br] ([s12 b12] & E12 & Er)%rbind_Ok. cbn [fst snd] in Er.
    apply fuse_Ok in E12 as (B1 & u1 & B2 & B3).
    apply fuse_Ok in Er as (B4 & u2 & B5 & B6).
    assert (Bsr : broadcasts_to (length sr) sr) by by left.
    assert (Bbr : broadcasts_to (length br) br) by by left.
    destruct (binop_broadcasts_inv _ _ _ _ _ B4 Bsr) as (Bs0 & Bs12).
    destruct (binop_broadcasts_inv _ _ _ _ _ B1 Bs12) as (Bs1 & Bs2).
    destruct (binop_broadcasts_inv _ _ _ _ _ B6 Bbr) as (Bu2 & Bb12).
    destruct (binop_broadcasts_inv _ _ _ _ _ B5 Bu2) as (Bs12' & Bb0).
    destruct (binop_broadcasts_inv _ _ _ _ _ B1 Bs12') as (Bs1' & Bs2').
    destruct (binop_broadcasts_inv _ _ _ _ _ B3 Bb12) as (Bu1 & Bb2).
    destruct (binop_broadcasts_inv _ _ _ _ _ B2 Bu1) as (_ & Bb1).
    destruct (binop_broadcasts mul s0 s1 _ Bs0 Bs1) as (s01 & A1 & Bs01).
    destruct (binop_broadcasts mul s1 b0 _ Bs1' Bb0) as (t1 & A2 & Bt1).
    destruct (binop_broadcasts add t1 b1 _ Bt1 Bb1) as (b01 & A3 & Bb01).
    destruct (binop_broadcasts mul s01 s2 _ Bs01 Bs2) as (sl & A4 & _).
    destruct (binop_broadcasts mul s2 b01 _ Bs2' Bb01) as (t2 & A5 & Bt2).
    destruct (binop_broadcasts add t2 b2 _ Bt2 Bb2) as (bl & A6 & _).
    exists (sl, bl).
    assert (E01 : fuse s0 b0 s1 b1 = Ok (s01, b01)) by (apply fuse_Ok; eauto).
    rewrite E01. cbn [rbind Ok fst snd]. apply fuse_Ok. eauto. }
  destruct (let* p := fuse s0 b0 s1 b1 in fuse p.1 p.2 s2 b2) as [e|l] eqn:El;
    destruct (let* q := fuse s1 b1 s2 b2 in fuse s0 b0 q.1 q.2) as [e'|r] eqn:Er.
  - assert (e = ValueError) as ->.
    { destruct (fuse s0 b0 s1 b1) as [e0|p] eqn:Ep; cbn [rbind Ok] in El.
      - injection El as <-. by apply fuse_Raise in Ep.
      - by apply fuse_Raise in El. }
    assert (e' = ValueError) as ->; [|done].
    destruct (fuse s1 b1 s2 b2) as [e0|q] eqn:Eq; cbn [rbind Ok] in Er.
    + injection Er as <-. by apply fuse_Raise in Eq.
    + by apply fuse_Raise in Er.
  - destruct (Hr r eq_refl) as (l & Hl'). discriminate.
  - destruct (Hl l eq_refl) as (r & Hr'). discriminate.
  - by rewrite (Hsame l r).
Qed.

End Fusion_order.

Section FuseConsecutiveBatchNormalization_more.
Context {T : Type} `{Arith T}.
Import FuseConsecutiveBatchNormalization.

Implicit Types (model : HLSModel (list T)) (nd : node (list T)).

Lemma binop_mismatch (f : T -> T -> T) (u v : list T) :
  length u <> length v -> length u <> 1%nat -> length v <> 1%nat ->
  np.binop f u v = Raise ValueError.
Proof.
  unfold np.binop. intros Huv Hu Hv.
  destruct (Nat.eqb_spec (length u) (length v)) as [E|_]; [done|].
  destruct u as [|a [|a' u]]; destruct v as [|b [|b' v]]; simpl in *;
    try reflexivity; lia.
Qed.

(** On two affine nodes whose scales have different lengths, neither of
    them 1, [transform] raises [ValueError]. *)
Theorem Fuse_transform_shape_mismatch model nd (bn0 : node (list T)) (i : string)
    (ws0 wb0 ws1 wb1 : WeightVariable (list T)) :
  head (inputs nd) = Some i -> graph model !! i = Some bn0 ->
  weights bn0 !! "scale" = Some ws0 -> weights bn0 !! "bias" = Some wb0 ->
  weights nd !! "scale" = Some ws1 -> weights nd !! "bias" = Some wb1 ->
  length (data ws0) <> length (data ws1) ->
  length (data ws0) <> 1%nat -> length (data ws1) <> 1%nat ->
  transform model nd = Raise ValueError.
Proof.
  intros Ei Eg Es0 Eb0 Es1 Eb1 Hne H0 H1.
  unfold transform, get_input_node, getitem.
  destruct (inputs nd) as [|i' is_]; [discriminate|]. injection Ei as ->.
  rewrite Eg. cbn [deref rbind Ok]. rewrite Es0, Eb0, Es1, Eb1. cbn [rbind Ok].
  unfold fuse, np.multiply. by rewrite binop_mismatch.
Qed.

(** [transform] assigns the data of the input node's scale and bias and
    nothing else of its weights: the quantizer and the data before
    quantization of the two entries stay as they were, and so does every
    other entry. *)
Theorem Fuse_transform_only_data model nd (bn0 : node (list T)) (i o p : string)
    (ws0 wb0 ws1 wb1 : WeightVariable (list T)) (s2 b2 : list T) :
  head (inputs nd) = Some i -> graph model !! i = Some bn0 ->
  weights bn0 !! "scale" = Some ws0 -> weights bn0 !! "bias" = Some wb0 ->
  weights nd !! "scale" = Some ws1 -> weights nd !! "bias" = Some wb1 ->
  fuse (data ws0) (data wb0) (data ws1) (data wb1) = Ok (s2, b2) ->
  head (outputs nd) = Some o -> head (outputs bn0) = Some p ->
  i <> name nd ->
  exists model' bn0' ws' wb',
    transform model nd = Ok (model', true) /\
    graph model' !! i = Some bn0' /\
    weights bn0' !! "scale" = Some ws' /\ weights bn0' !! "bias" = Some wb' /\
    quantizer ws' = quantizer ws0 /\
    data_unquantized ws' = data_unquantized ws0 /\
    quantizer wb' = quantizer wb0 /\
    data_unquantized wb' = data_unquantized wb0 /\
    (forall role, role <> "scale" -> role <> "bias" ->
       weights bn0' !! role = weights bn0 !! role).
Proof.
  intros Ei Eg Es0 Eb0 Es1 Eb1 Ef Eo Ep Hne.
  eexists _, _, _, _. split; [by eapply transform_steps_fuse|].
  cbn [graph set_graph]. split.
  { rewrite lookup_delete_ne, lookup_fmap, lookup_insert_eq by done.
    reflexivity. }
  cbn [weights rewire set_inputs fused_node set_weights].
  split; [by rewrite lookup_insert_ne, lookup_insert_eq|].
  split; [by rewrite lookup_insert_eq|].
  repeat (split; [reflexivity|]).
  intros role H1 H2. by rewrite !lookup_insert_ne.
Qed.

(** After [transform] has fused a node into its input node, an affine node
    that read the node's output reads the input node, and the pass matches
    it again: a row of affine layers is fused one node at a time.  The input
    node is the one its first output names. *)
Theorem Fuse_then_Fuse_match model nd (bn0 c : node (list T)) (i o k : string)
    (ws0 wb0 ws1 wb1 : WeightVariable (list T)) (s2 b2 : list T) :
  match_ model nd = true ->
  head (inputs nd) = Some i -> graph model !! i = Some bn0 ->
  weights bn0 !! "scale" = Some ws0 -> weights bn0 !! "bias" = Some wb0 ->
  weights nd !! "scale" = Some ws1 -> weights nd !! "bias" = Some wb1 ->
  fuse (data ws0) (data wb0) (data ws1) (data wb1) = Ok (s2, b2) ->
  head (outputs nd) = Some o -> head (outputs bn0) = Some i ->
  i <> name nd ->
  graph model !! k = Some c -> k <> name nd -> k <> i ->
  head (inputs c) = Some o -> isinstance_BatchNormalization c = true ->
  exists model' c',
    transform model nd = Ok (model', true) /\
    graph model' !! k = Some c' /\
    head (inputs c') = Some i /\
    match_ model' c' = true.
Proof.
  intros Hm Ei Eg Es0 Eb0 Es1 Eb1 Ef Eo Ep Hne Ek Hk Hki Ec Hc.
  eexists _, (rewire o i c).
  split; [by eapply transform_steps_fuse|].
  cbn [graph set_graph].
  split.
  { by rewrite lookup_delete_ne, lookup_fmap, lookup_insert_ne, Ek. }
  pose proof (head_rewire c o i Ec) as Eh. split; [exact Eh|].
  unfold match_, get_input_node.
  destruct (inputs (rewire o i c)) as [|i' is_]; [discriminate|].
  injection Eh as ->. cbn [graph set_graph].
  rewrite lookup_delete_ne, lookup_fmap, lookup_insert_eq by done.
  cbn [fmap option_fmap option_map].
  rewrite !isinstance_rewire, Hc.
  unfold match_, get_input_node in Hm.
  destruct (inputs nd) as [|i' is']; [discriminate|]. injection Ei as ->.
  rewrite Eg in Hm. apply andb_true_iff in Hm as (_ & Hm).
  exact Hm.
Qed.

End FuseConsecutiveBatchNormalization_more.

Lemma fuse_assoc_witness :
  (let* p := FuseConsecutiveBatchNormalization.fuse [2] [1] [3] [0] in
   FuseConsecutiveBatchNormalization.fuse p.1 p.2 [5] [7]) = Ok ([30], [22]) /\
  (let* q := FuseConsecutiveBatchNormalization.fuse [3] [0] [5] [7] in
   FuseConsecutiveBatchNormalization.fuse [2] [1] q.1 q.2) = Ok ([30], [22]).
Proof.
  split; [reflexivity|].
  rewrite <- (fuse_assoc (T := Z) [2] [1] [3] [0] [5] [7]). reflexivity.
Defined.

Lemma Fuse_transform_shape_mismatch_witness :
  FuseConsecutiveBatchNormalization.transform Example_fuse.mismatched
    (Example.batchnorm "BatchNormalization" "bn1" "bn0" [3; 3; 3] [0; 0; 0])
  = Raise ValueError.
Proof.
  apply (Fuse_transform_shape_mismatch Example_fuse.mismatched _
           (Example.batchnorm "BatchNormalization" "bn0" "fc1" [2; 2] [1; 1])
           "bn0" (Example.weight_of [2; 2]) (Example.weight_of [1; 1])
           (Example.weight_of [3; 3; 3]) (Example.weight_of [0; 0; 0]));
    try (vm_compute; reflexivity); vm_compute; discriminate.
Defined.

Lemma Fuse_transform_only_data_witness :
  exists model' bn0' ws' wb',
    FuseConsecutiveBatchNormalization.transform Example.chain Example.bn1
    = Ok (model', true) /\
    graph model' !! "fc1_alpha" = Some bn0' /\
    weights bn0' !! "scale" = Some ws' /\ weights bn0' !! "bias" = Some wb' /\
    quantizer ws' = None /\ data_unquantized ws' = None /\
    quantizer wb' = None /\ data_unquantized wb' = None /\
    (forall role, role <> "scale" -> role <> "bias" ->
       weights bn0' !! role =
       weights (Example.batchnorm "ApplyAlpha" "fc1_alpha" "fc1" [2] [1]) !! role).
Proof.
  apply (Fuse_transform_only_data Example.chain Example.bn1
           (Example.batchnorm "ApplyAlpha" "fc1_alpha" "fc1" [2] [1])
           "fc1_alpha" "bn1" "fc1_alpha"
           (Example.weight_of [2]) (Example.weight_of [1])
           (Example.weight_of [3]) (Example.weight_of [0]) [6] [3]);
    try (vm_compute; reflexivity); discriminate.
Defined.

Lemma Fuse_then_Fuse_match_witness :
  exists model' c',
    FuseConsecutiveBatchNormalization.transform Example_fuse.chain3
      (Example.batchnorm "BatchNormalization" "bn1" "bn0" [3] [0])
    = Ok (model', true) /\
    graph model' !! "bn2" = Some c' /\
    head (inputs c') = Some "bn0" /\
    FuseConsecutiveBatchNormalization.match_ model' c' = true.
Proof.
  apply (Fuse_then_Fuse_match Example_fuse.chain3
           (Example.batchnorm "BatchNormalization" "bn1" "bn0" [3] [0])
           (Example.batchnorm "BatchNormalization" "bn0" "fc1" [2] [1])
           (Example.batchnorm "BatchNormalization" "bn2" "bn1" [5] [7])
           "bn0" "bn1" "bn2"
           (Example.weight_of [2]) (Example.weight_of [1])
           (Example.weight_of [3]) (Example.weight_of [0]) [6] [3]);
    try (vm_compute; reflexivity); discriminate.
Defined.

(** ** OutputRoundingSaturationMode applied twice *)

Section OutputRoundingSaturationMode_twice.
Context {T : Type}.
Import OutputRoundingSaturationMode.

Implicit Types (self : pass) (model : HLSModel T) (nd : node T).

(** On a fixed-point type a second [transform] changes nothing: it returns
    the node the first one returned. *)
Theorem ORSM_transform_twice_fixed self model nd nd' (w i : Z) (s : bool)
    (rm sm : option string) (sb : option Z) :
  get_output_precision nd = Typed (FixedPrecisionType w i s rm sm sb) ->
  transform self model nd = Ok (nd', false) ->
  transform self model nd' = Ok (nd', false).
Proof.
  intros E Ht. rewrite (transform_fixed self model nd w i s rm sm sb E) in Ht.
  cbn zeta in Ht. injection Ht as <-.
  destruct (is_not_None (get_attr nd "accum_t")) eqn:Ea.
  - unfold transform, get_output_precision, get_attr, set_attr,
      set_output_precision, set_attributes, set_output_variable.
    cbn [attributes output_variable type_precision transform_locals rbind Ok].
    rewrite lookup_insert_eq.
    cbn [default from_option is_not_None attr_of_precision
         class_name name inputs outputs weights shape dim_names].
    by rewrite insert_insert_eq.
  - unfold transform, get_output_precision, get_attr, set_output_precision,
      set_output_variable in *.
    cbn [attributes output_variable type_precision transform_locals rbind Ok].
    by rewrite Ea.
Qed.

(** On a type string that ends in its only closing bracket, a second
    [precision_string_modify] writes the configured fields a second time
    (the fields are taken to hold no closing bracket). *)
Theorem ORSM_string_modify_twice self (body : string) :
  Str.contains ">" body = false ->
  Str.contains ">" (mode_text self) = false ->
  precision_string_modify self (precision_string_modify self (body +:+ ">"))
  = body +:+ mode_text self +:+ mode_text self +:+ ">".
Proof.
  intros Hb Hm. rewrite (precision_string_modify_app self body Hb).
  rewrite <- append_assoc, precision_string_modify_app.
  - by rewrite append_assoc.
  - by rewrite contains_char_app, Hb, Hm.
Qed.

End OutputRoundingSaturationMode_twice.

Lemma ORSM_transform_twice_fixed_witness :
  exists nd',
    OutputRoundingSaturationMode.transform Example.round_dense
      (Example.model_of (Example.dense Example.fixed_16_6))
      (Example.dense Example.fixed_16_6) = Ok (nd', false) /\
    OutputRoundingSaturationMode.transform Example.round_dense
      (Example.model_of (Example.dense Example.fixed_16_6)) nd'
    = Ok (nd', false).
Proof.
  eexists. split; [reflexivity|].
  exact (ORSM_transform_twice_fixed Example.round_dense
           (Example.model_of (Example.dense Example.fixed_16_6))
           (Example.dense Example.fixed_16_6) _ 16 6 true None None None
           eq_refl eq_refl).
Defined.

Lemma ORSM_string_modify_twice_witness :
  OutputRoundingSaturationMode.precision_string_modify Example_more.saturate
    (OutputRoundingSaturationMode.precision_string_modify Example_more.saturate
       "ap_fixed<16,6>")
  = "ap_fixed<16,6,AP_SAT,0,AP_SAT,0>".
Proof.
  exact (ORSM_string_modify_twice Example_more.saturate "ap_fixed<16,6"
           eq_refl eq_refl).
Defined.
